(** * dotNET-Decoder: the base64 call-site scanner and patcher

    A shallow embedding of [dotnet_base64_decoder.py].  The tool loads a
    managed binary through dnlib, looks in every method body for a
    string literal followed by a call to
    [System.Convert.FromBase64String], replaces the literal by its
    decoded text and turns the call into a [nop].

    Instructions are objects of the CLR that the Python code reads and
    mutates through references; a method body is a list of such
    references.  The embedding keeps that object store explicit: a heap
    from references to instructions, bodies as lists of references, and
    the decoder's methods as computations over a state that holds the
    heap, the decoder object, the log and what was printed or written. *)

From Stdlib Require Import ZArith Ascii String List Bool Lia.
From stdpp Require Import base option list gmap strings.

Local Open Scope string_scope.
Local Open Scope list_scope.
Local Open Scope Z_scope.

(** ** Exceptions and results *)

(** The exceptions that can be raised on the paths modelled here. *)
Inductive PyExn : Type :=
| TypeError                    (* b64decode of something that is not text *)
| ValueError                   (* str.encode('ascii') on non-ASCII text *)
| BinasciiInvalidLength (n : Z) (* "number of data characters (n) cannot be
                                   1 more than a multiple of 4" *)
| BinasciiIncorrectPadding     (* "Incorrect padding" *)
| UnicodeDecodeError           (* bytes.decode('utf-8') *)
| AttributeError               (* member access on None *)
| IndexError                   (* Python sequence index out of range *)
| ArgumentOutOfRangeException. (* CLR list index out of range *)

Inductive result (A : Type) : Type :=
| Ok (a : A)
| Raise (e : PyExn).
Arguments Ok {A} a.
Arguments Raise {A} e.

Definition is_ok {A} (r : result A) : bool :=
  match r with Ok _ => true | Raise _ => false end.

(** ** Text and bytes

    Text (a Python [str], a CLR [System.String]) is represented by its
    UTF-8 encoding, held in a Rocq [string]; a [bytes] object is a list
    of integers in [0, 256). *)

Definition bytes : Type := list Z.

Definition ord (c : ascii) : Z := Z.of_N (N_of_ascii c).
Definition chr (b : Z) : ascii := ascii_of_N (Z.to_N b).

Fixpoint str_bytes (s : string) : bytes :=
  match s with
  | EmptyString => []
  | String c s' => ord c :: str_bytes s'
  end.

Fixpoint bytes_str (bs : bytes) : string :=
  match bs with
  | [] => EmptyString
  | b :: bs' => String (chr b) (bytes_str bs')
  end.

(** [s.encode('ascii')], the first step of [base64.b64decode] on a
    [str] argument: every character must be below 128. *)
Definition encode_ascii (s : string) : result bytes :=
  if forallb (fun b => b <? 128) (str_bytes s)
  then Ok (str_bytes s) else Raise ValueError.

(** ** [binascii.a2b_base64], non-strict mode

    [base64.b64decode(s)] is called with its default [validate=False],
    so the work is done by CPython's [binascii.a2b_base64] with strict
    mode off.  The loop below follows that routine: a character outside
    the alphabet is skipped, a pad character ends the input once the
    current quad is complete, and the only errors are reported after
    the loop, from the position reached in the current quad. *)

Definition BASE64_PAD : Z := 61.

(** The decoding table: the 6-bit value of an alphabet character, 255
    (the table's -1 stored in an unsigned char) for every other. *)
Definition table_a2b_base64 (c : Z) : Z :=
  if (65 <=? c) && (c <=? 90) then c - 65
  else if (97 <=? c) && (c <=? 122) then c - 71
  else if (48 <=? c) && (c <=? 57) then c + 4
  else if c =? 43 then 62
  else if c =? 47 then 63
  else 255.

Record a2b_state : Type := {
  quad_pos : Z;
  leftchar : Z;
  pads : Z;
  bin_data : bytes
}.

Definition a2b_init : a2b_state :=
  {| quad_pos := 0; leftchar := 0; pads := 0; bin_data := [] |}.

(** What one turn of the loop does: go on with a new state, or jump to
    [done]. *)
Inductive a2b_next : Type :=
| Continue (st : a2b_state)
| Done (st : a2b_state).

Definition uchar (v : Z) : Z := Z.land v 255.

Definition a2b_step (st : a2b_state) (this_ch : Z) : a2b_next :=
  if this_ch =? BASE64_PAD then
    if 2 <=? quad_pos st then
      let pads' := pads st + 1 in
      let st' := {| quad_pos := quad_pos st; leftchar := leftchar st;
                    pads := pads'; bin_data := bin_data st |} in
      if 4 <=? quad_pos st + pads' then Done st' else Continue st'
    else Continue st
  else
    let v := table_a2b_base64 this_ch in
    if 64 <=? v then Continue st
    else
      if quad_pos st =? 0 then
        Continue {| quad_pos := 1; leftchar := v; pads := 0;
                    bin_data := bin_data st |}
      else if quad_pos st =? 1 then
        Continue {| quad_pos := 2; leftchar := Z.land v 15; pads := 0;
                    bin_data := bin_data st ++
                      [uchar (Z.lor (Z.shiftl (leftchar st) 2) (Z.shiftr v 4))] |}
      else if quad_pos st =? 2 then
        Continue {| quad_pos := 3; leftchar := Z.land v 3; pads := 0;
                    bin_data := bin_data st ++
                      [uchar (Z.lor (Z.shiftl (leftchar st) 4) (Z.shiftr v 2))] |}
      else
        Continue {| quad_pos := 0; leftchar := 0; pads := 0;
                    bin_data := bin_data st ++
                      [uchar (Z.lor (Z.shiftl (leftchar st) 6) v)] |}.

Fixpoint a2b_loop (ascii_data : bytes) (st : a2b_state) : a2b_next :=
  match ascii_data with
  | [] => Continue st
  | this_ch :: rest =>
      match a2b_step st this_ch with
      | Continue st' => a2b_loop rest st'
      | Done st' => Done st'
      end
  end.

Definition a2b_base64 (ascii_data : bytes) : result bytes :=
  match a2b_loop ascii_data a2b_init with
  | Done st => Ok (bin_data st)
  | Continue st =>
      if quad_pos st =? 0 then Ok (bin_data st)
      else if quad_pos st =? 1 then
        Raise (BinasciiInvalidLength
                 (Z.of_nat (length (bin_data st)) / 3 * 4 + 1))
      else Raise BinasciiIncorrectPadding
  end.

(** ** [bytes.decode('utf-8')]

    The strict UTF-8 decoder: well-formed sequences only, no overlong
    forms, no surrogates, nothing above U+10FFFF.  [need] counts the
    continuation bytes still expected and [lo], [hi] bound the next
    one.  Since text is kept in its UTF-8 form, a successful decode
    returns the same bytes as text. *)
Fixpoint utf8_wellformed (bs : bytes) (need : nat) (lo hi : Z) : bool :=
  match bs with
  | [] => match need with O => true | S _ => false end
  | b :: rest =>
      match need with
      | O =>
          if (0 <=? b) && (b <=? 127) then utf8_wellformed rest 0 128 191
          else if (194 <=? b) && (b <=? 223) then utf8_wellformed rest 1 128 191
          else if b =? 224 then utf8_wellformed rest 2 160 191
          else if b =? 237 then utf8_wellformed rest 2 128 159
          else if (225 <=? b) && (b <=? 239) then utf8_wellformed rest 2 128 191
          else if b =? 240 then utf8_wellformed rest 3 144 191
          else if b =? 244 then utf8_wellformed rest 3 128 143
          else if (241 <=? b) && (b <=? 243) then utf8_wellformed rest 3 128 191
          else false
      | S n =>
          if (lo <=? b) && (b <=? hi) then utf8_wellformed rest n 128 191
          else false
      end
  end.

Definition decode_utf8 (bs : bytes) : result string :=
  if utf8_wellformed bs 0 128 191 then Ok (bytes_str bs)
  else Raise UnicodeDecodeError.

(** ** The instruction model of dnlib *)

Module OpCodes.

Inductive t : Type :=
| Nop
| Ldstr
| Call
| Callvirt
| Ret
| Pop
| Other (value : Z).

End OpCodes.

Global Instance opcode_eq_dec : EqDecision OpCodes.t.
Proof. solve_decision. Defined.

(** References to instruction objects. *)
Abbreviation loc := Z.

(** The classes of dnlib a method operand can be an instance of. *)
Inductive MethodKind : Type := MemberRef | MethodDef | MethodSpec.

Global Instance method_kind_eq_dec : EqDecision MethodKind.
Proof. solve_decision. Defined.

(** An operand as Python sees it: [None], text, a number, or a method
    object with its [DeclaringType.FullName] and its [Name]. *)
Inductive operand : Type :=
| OpNone
| OpStr (s : string)
| OpInt (n : Z)
| OpMethod (kind : MethodKind) (declaring_type_full_name name : string).

Global Instance operand_eq_dec : EqDecision operand.
Proof. solve_decision. Defined.

Record Instruction : Type := {
  OpCode : OpCodes.t;
  Operand : operand
}.

Global Instance instruction_eq_dec : EqDecision Instruction.
Proof. solve_decision. Defined.

Global Instance instruction_inhabited : Inhabited Instruction :=
  populate {| OpCode := OpCodes.Nop; Operand := OpNone |}.

(** A method: [HasBody] is [Body is not None], and [Body.Instructions]
    is the list of the body's instruction objects. *)
Record Method : Type := {
  MethodName : string;
  Body : option (list loc)
}.

Global Instance method_eq_dec : EqDecision Method.
Proof. solve_decision. Defined.

Definition HasBody (method : Method) : bool :=
  match Body method with Some _ => true | None => false end.

Record TypeDef : Type := {
  TypeName : string;
  Methods : list Method
}.

Record ModuleDefMD : Type := {
  Types : list TypeDef
}.

(** One entry of [base64_calls]: [(method, insn, prev_insn)]. *)
Definition Match : Type := Method * loc * loc.

Definition call_insn_of (mt : Match) : loc := snd (fst mt).
Definition str_insn_of (mt : Match) : loc := snd mt.

Record Base64StringDecoder : Type := {
  file_path : string;
  file_module : ModuleDefMD;
  base64_calls : list Match
}.

(** What [main] prints. *)
Inductive Output : Type :=
| PrintTable (rows : list (operand * string))
| PrintCount (n : nat)
| PrintSaved (path : string).

(** The state the program runs in: the instruction objects, the decoder
    object, the records passed to [logging.error], standard output and
    the files [Module.Write] produced (with the instructions written). *)
Record State : Type := {
  heap : gmap Z Instruction;
  self : Base64StringDecoder;
  log : list (operand * PyExn);
  stdout : list Output;
  written : list (string * gmap Z Instruction)
}.

(** ** Computations: state and exceptions

    A raised exception keeps the state reached so far, as in Python. *)

Definition M (A : Type) : Type := State -> State * result A.

Definition ret {A} (a : A) : M A := fun s => (s, Ok a).

Definition raise {A} (e : PyExn) : M A := fun s => (s, Raise e).

Definition bind {A B} (m : M A) (f : A -> M B) : M B :=
  fun s =>
    match m s with
    | (s', Ok a) => f a s'
    | (s', Raise e) => (s', Raise e)
    end.

Notation "x <- m ;; k" := (bind m (fun x => k))
  (at level 60, m at next level, right associativity).
Notation "m ;;; k" := (bind m (fun _ => k))
  (at level 60, right associativity).

Definition lift {A} (r : result A) : M A := fun s => (s, r).

(** [try: body  except Exception as e: handler e] *)
Definition try_except {A} (body : M A) (handler : PyExn -> M A) : M A :=
  fun s =>
    match body s with
    | (s', Ok a) => (s', Ok a)
    | (s', Raise e) => handler e s'
    end.

(** [for x in xs: body x] *)
Fixpoint for_each {A} (xs : list A) (body : A -> M unit) : M unit :=
  match xs with
  | [] => ret tt
  | x :: xs' => body x ;;; for_each xs' body
  end.

(** A [for] loop that carries a local variable. *)
Fixpoint for_fold {A B} (xs : list A) (acc : B) (body : B -> A -> M B) : M B :=
  match xs with
  | [] => ret acc
  | x :: xs' => acc' <- body acc x ;; for_fold xs' acc' body
  end.

Definition gets {A} (f : State -> A) : M A := fun s => (s, Ok (f s)).

Definition get_insn (l : loc) : M Instruction :=
  fun s => (s, Ok (heap s !!! l)).

Definition set_heap (h : gmap Z Instruction) (s : State) : State :=
  {| heap := h; self := self s; log := log s; stdout := stdout s;
     written := written s |}.

(** [insn.OpCode = oc] *)
Definition set_OpCode (l : loc) (oc : OpCodes.t) : M unit :=
  fun s =>
    (set_heap (<[l := {| OpCode := oc; Operand := Operand (heap s !!! l) |}]>
                 (heap s)) s, Ok tt).

(** [insn.Operand = v] *)
Definition set_Operand (l : loc) (v : operand) : M unit :=
  fun s =>
    (set_heap (<[l := {| OpCode := OpCode (heap s !!! l); Operand := v |}]>
                 (heap s)) s, Ok tt).

(** [self.base64_calls.append(mt)] *)
Definition append_base64_call (mt : Match) : M unit :=
  fun s =>
    ({| heap := heap s;
        self := {| file_path := file_path (self s);
                   file_module := file_module (self s);
                   base64_calls := base64_calls (self s) ++ [mt] |};
        log := log s; stdout := stdout s; written := written s |}, Ok tt).

(** [logging.error(f"Failed to decode Base64 string {base64_str}: {e}")] *)
Definition logging_error (base64_str : operand) (e : PyExn) : M unit :=
  fun s =>
    ({| heap := heap s; self := self s; log := log s ++ [(base64_str, e)];
        stdout := stdout s; written := written s |}, Ok tt).

Definition print (o : Output) : M unit :=
  fun s =>
    ({| heap := heap s; self := self s; log := log s;
        stdout := stdout s ++ [o]; written := written s |}, Ok tt).

(** [self.file_module.Write(path, options)] *)
Definition Write (path : string) : M unit :=
  fun s =>
    ({| heap := heap s; self := self s; log := log s; stdout := stdout s;
        written := written s ++ [(path, heap s)] |}, Ok tt).

(** ** Indexing an instruction list

    [Instructions.IndexOf(insn)] is the position of the first element
    that is the object [insn], or -1.  What [Instructions[i]] does with
    a negative [i] depends on what the list is on the Python side: a
    CLR list refuses it, a Python sequence counts from the end. *)

Fixpoint IndexOf (l : list loc) (x : loc) : Z :=
  match l with
  | [] => -1
  | y :: l' =>
      if bool_decide (y = x) then 0
      else let r := IndexOf l' x in if r <? 0 then -1 else r + 1
  end.

Inductive Host : Type := ClrList | PySequence.

Definition get_Item (host : Host) (l : list loc) (i : Z) : result loc :=
  let n := Z.of_nat (length l) in
  match host with
  | ClrList =>
      if (0 <=? i) && (i <? n) then
        match l !! Z.to_nat i with
        | Some x => Ok x
        | None => Raise ArgumentOutOfRangeException
        end
      else Raise ArgumentOutOfRangeException
  | PySequence =>
      let j := if i <? 0 then i + n else i in
      if (0 <=? j) && (j <? n) then
        match l !! Z.to_nat j with
        | Some x => Ok x
        | None => Raise IndexError
        end
      else Raise IndexError
  end.

(** [method.Body.Instructions] *)
Definition Body_Instructions (method : Method) : M (list loc) :=
  match Body method with
  | Some instructions => ret instructions
  | None => raise AttributeError
  end.

(** ** [Base64StringDecoder] *)

(** [__init__], given what [ModuleDefMD.Load(file_path)] returned. *)
Definition init (path : string) (loaded : ModuleDefMD) : Base64StringDecoder :=
  {| file_path := path; file_module := loaded; base64_calls := [] |}.

Definition scan_insn (host : Host) (method : Method)
    (instructions : list loc) (insn : loc) : M unit :=
  i <- get_insn insn ;;
  if bool_decide (OpCode i = OpCodes.Call) then
    match Operand i with
    | OpMethod MemberRef declaring_type_full_name name =>
        if String.eqb declaring_type_full_name "System.Convert"
           && String.eqb name "FromBase64String"
        then
          prev_insn <- lift (get_Item host instructions
                               (IndexOf instructions insn - 1)) ;;
          p <- get_insn prev_insn ;;
          if bool_decide (OpCode p = OpCodes.Ldstr)
          then append_base64_call (method, insn, prev_insn)
          else ret tt
        else ret tt
    | _ => ret tt
    end
  else ret tt.

Definition scan_method (host : Host) (method : Method) : M unit :=
  if negb (HasBody method) then ret tt
  else
    instructions <- Body_Instructions method ;;
    for_each instructions (scan_insn host method instructions).

Definition identify_base64_calls (host : Host) : M unit :=
  md <- gets (fun s => file_module (self s)) ;;
  for_each (Types md) (fun module_type =>
    for_each (Methods module_type) (scan_method host)).

(** [base64.b64decode(base64_str)] *)
Definition b64decode (base64_str : operand) : result bytes :=
  match base64_str with
  | OpStr s =>
      match encode_ascii s with
      | Ok data => a2b_base64 data
      | Raise e => Raise e
      end
  | _ => Raise TypeError
  end.

(** The two lines under [try] that can raise. *)
Definition decode_text (base64_str : operand) : result string :=
  match b64decode base64_str with
  | Ok decoded_bytes => decode_utf8 decoded_bytes
  | Raise e => Raise e
  end.

Definition decode_one (decoded_strings : list (operand * string))
    (mt : Match) : M (list (operand * string)) :=
  let '(method, call_insn, str_insn) := mt in
  i <- get_insn str_insn ;;
  let base64_str := Operand i in
  try_except
    (decoded_bytes <- lift (b64decode base64_str) ;;
     decoded_str <- lift (decode_utf8 decoded_bytes) ;;
     let decoded_strings := decoded_strings ++ [(base64_str, decoded_str)] in
     set_Operand str_insn (OpStr decoded_str) ;;;
     set_OpCode str_insn OpCodes.Ldstr ;;;
     set_OpCode call_insn OpCodes.Nop ;;;
     ret decoded_strings)
    (fun e => logging_error base64_str e ;;; ret decoded_strings).

Definition decode_base64_strings : M (list (operand * string)) :=
  calls <- gets (fun s => base64_calls (self s)) ;;
  for_fold calls [] decode_one.

(** [s.rsplit(sep, 1)] for a one-character separator: one element when
    [sep] does not occur, else the text before its last occurrence and
    the text after it. *)
Fixpoint rsplit1 (sep : ascii) (s : string) : list string :=
  match s with
  | EmptyString => [EmptyString]
  | String c s' =>
      match rsplit1 sep s' with
      | [t] =>
          if Ascii.eqb c sep then [EmptyString; t] else [String c t]
      | h :: tl => String c h :: tl
      | [] => []
      end
  end.

Definition cleaned_filename (path : string) : string :=
  let split_name := rsplit1 "."%char path in
  if (length split_name =? 1)%nat
  then nth 0 split_name "" +:+ "_decoded.exe"
  else nth 0 split_name "" +:+ "_decoded." +:+ nth 1 split_name "".

Definition save_module : M string :=
  path <- gets (fun s => file_path (self s)) ;;
  let name := cleaned_filename path in
  Write name ;;;
  ret name.

(** [main] from the construction of the decoder on. *)
Definition main (host : Host) : M unit :=
  identify_base64_calls host ;;;
  decoded_strings <- decode_base64_strings ;;
  match decoded_strings with
  | [] => ret tt
  | _ :: _ =>
      print (PrintTable decoded_strings) ;;;
      print (PrintCount (length decoded_strings)) ;;;
      new_file_path <- save_module ;;
      print (PrintSaved new_file_path)
  end.

(** The state [main] starts from once the module is loaded. *)
Definition loaded (path : string) (md : ModuleDefMD)
    (h : gmap Z Instruction) : State :=
  {| heap := h; self := init path md; log := []; stdout := [];
     written := [] |}.

(** ** Running the model on small modules *)

Definition FromBase64String : operand :=
  OpMethod MemberRef "System.Convert" "FromBase64String".

Definition one_method (body : list loc) : ModuleDefMD :=
  {| Types := [ {| TypeName := "Program";
                   Methods := [ {| MethodName := "Main";
                                   Body := Some body |} ] |} ] |}.

Definition mk_heap (l : list Instruction) : gmap Z Instruction :=
  list_to_map (imap (fun i x => (Z.of_nat i, x)) l).

Definition view (h : gmap Z Instruction) (body : list loc) : list Instruction :=
  map (fun l => h !!! l) body.

Definition hello_state : State :=
  loaded "/tmp/sample.exe" (one_method [0; 1])
    (mk_heap [ {| OpCode := OpCodes.Ldstr; Operand := OpStr "SGVsbG8=" |};
               {| OpCode := OpCodes.Call; Operand := FromBase64String |} ]).

(** ** What a scan adds

    [add_calls delta s] is [s] with [delta] appended to
    [self.base64_calls] and nothing else touched. *)
Definition add_calls (delta : list Match) (s : State) : State :=
  {| heap := heap s;
     self := {| file_path := file_path (self s);
                file_module := file_module (self s);
                base64_calls := base64_calls (self s) ++ delta |};
     log := log s; stdout := stdout s; written := written s |}.

(** A computation that only appends to [base64_calls], what it appends
    and how it ends being determined by the instructions and the
    module. *)
Definition appends_only (m : M unit) : Prop :=
  forall (h : gmap Z Instruction) (md : ModuleDefMD),
    exists delta r, forall s,
      heap s = h -> file_module (self s) = md ->
      m s = (add_calls delta s, r).

(** ** What the patcher does to the instructions

    The three assignments of a successful decode, in the order of the
    source, as one update of the heap. *)
Definition patch_heap (h : gmap Z Instruction) (call_insn str_insn : loc)
    (decoded_str : string) : gmap Z Instruction :=
  let h1 := <[str_insn := {| OpCode := OpCode (h !!! str_insn);
                             Operand := OpStr decoded_str |}]> h in
  let h2 := <[str_insn := {| OpCode := OpCodes.Ldstr;
                             Operand := Operand (h1 !!! str_insn) |}]> h1 in
  <[call_insn := {| OpCode := OpCodes.Nop;
                    Operand := Operand (h2 !!! call_insn) |}]> h2.

Definition add_log (entry : operand * PyExn) (s : State) : State :=
  {| heap := heap s; self := self s; log := log s ++ [entry];
     stdout := stdout s; written := written s |}.

(** The instruction slots a list of matches refers to. *)
Definition slots (calls : list Match) : list loc :=
  flat_map (fun mt => [str_insn_of mt; call_insn_of mt]) calls.

(** Whether the literal of a match decodes, with the instructions as
    they are in [h]; the pair it then yields, or the record logged. *)
Definition decodes (h : gmap Z Instruction) (mt : Match) : bool :=
  is_ok (decode_text (Operand (h !!! str_insn_of mt))).

Definition decoded_pair (h : gmap Z Instruction) (mt : Match)
    : option (operand * string) :=
  let base64_str := Operand (h !!! str_insn_of mt) in
  match decode_text base64_str with
  | Ok decoded_str => Some (base64_str, decoded_str)
  | Raise _ => None
  end.

Definition failure_record (h : gmap Z Instruction) (mt : Match)
    : option (operand * PyExn) :=
  let base64_str := Operand (h !!! str_insn_of mt) in
  match decode_text base64_str with
  | Ok _ => None
  | Raise e => Some (base64_str, e)
  end.

(** ** The scanner as the specification words it

    The specification describes the scan by position: walk the body in
    order, carrying the instruction seen just before; at a call to the
    target whose predecessor is a string-literal load, emit the match.
    A call in first position has no predecessor and emits nothing. *)

(** A call to the target signature, as the source tests it: opcode
    [call], operand a [MemberRef], declaring type and name as fixed. *)
Definition is_target_call (h : gmap Z Instruction) (insn : loc) : bool :=
  bool_decide (OpCode (h !!! insn) = OpCodes.Call)
  && match Operand (h !!! insn) with
     | OpMethod MemberRef declaring_type_full_name name =>
         String.eqb declaring_type_full_name "System.Convert"
         && String.eqb name "FromBase64String"
     | _ => false
     end.

Definition is_ldstr (h : gmap Z Instruction) (insn : loc) : bool :=
  bool_decide (OpCode (h !!! insn) = OpCodes.Ldstr).

Fixpoint spec_scan_body (h : gmap Z Instruction) (method : Method)
    (prev : option loc) (rest : list loc) : list Match :=
  match rest with
  | [] => []
  | insn :: rest' =>
      match prev with
      | Some p =>
          if is_target_call h insn && is_ldstr h p
          then [(method, insn, p)] else []
      | None => []
      end ++ spec_scan_body h method (Some insn) rest'
  end.

Definition spec_scan_method (h : gmap Z Instruction) (method : Method)
    : list Match :=
  match Body method with
  | Some instructions => spec_scan_body h method None instructions
  | None => []
  end.

Definition spec_scan (h : gmap Z Instruction) (md : ModuleDefMD)
    : list Match :=
  flat_map (fun module_type =>
              flat_map (spec_scan_method h) (Methods module_type))
           (Types md).

(** The modules on which the positional reading is defined without
    further choice: within a body no instruction object occurs twice,
    and no body starts with a call to the target. *)
Definition body_ok (h : gmap Z Instruction) (instructions : list loc) : bool :=
  bool_decide (NoDup instructions)
  && match instructions with
     | [] => true
     | first :: _ => negb (is_target_call h first)
     end.

Definition method_ok (h : gmap Z Instruction) (method : Method) : bool :=
  match Body method with
  | Some instructions => body_ok h instructions
  | None => true
  end.

Definition module_ok (h : gmap Z Instruction) (md : ModuleDefMD) : bool :=
  forallb (fun module_type => forallb (method_ok h) (Methods module_type))
          (Types md).

(** A patchable site, by position: [c] directly follows [p] in the body
    of [method], [c] is a call to the target and [p] loads a string. *)
Definition site (h : gmap Z Instruction) (md : ModuleDefMD) (mt : Match)
    : Prop :=
  let '(method, c, p) := mt in
  exists module_type instructions (i : nat),
    module_type ∈ Types md
    /\ method ∈ Methods module_type
    /\ Body method = Some instructions
    /\ instructions !! i = Some p
    /\ instructions !! S i = Some c
    /\ is_target_call h c = true
    /\ is_ldstr h p = true.

(** The scanner's condition as the claim words it: a call whose operand
    carries the declaring type and the name of the target, whatever
    class of dnlib the operand is an instance of. *)
Definition names_target (h : gmap Z Instruction) (insn : loc) : bool :=
  bool_decide (OpCode (h !!! insn) = OpCodes.Call)
  && match Operand (h !!! insn) with
     | OpMethod _ declaring_type_full_name name =>
         String.eqb declaring_type_full_name "System.Convert"
         && String.eqb name "FromBase64String"
     | _ => false
     end.

(** A module that defines [System.Convert] itself: the call operand is
    a [MethodDef], not a [MemberRef]. *)
Definition methoddef_state : State :=
  loaded "/tmp/corelib.dll" (one_method [0; 1])
    (mk_heap [ {| OpCode := OpCodes.Ldstr; Operand := OpStr "SGVsbG8=" |};
               {| OpCode := OpCodes.Call;
                  Operand := OpMethod MethodDef "System.Convert"
                                      "FromBase64String" |} ]).

(** ** Further modules to run the model on *)

Definition method_A : Method :=
  {| MethodName := "A"; Body := Some [0; 1; 2] |}.
Definition method_B : Method :=
  {| MethodName := "B"; Body := Some [3; 4] |}.

(** Method [A] starts with the call to the target and ends with a
    string literal that has nothing to do with it; method [B] holds a
    regular site. *)
Definition first_call_state : State :=
  loaded "/tmp/sample.exe"
    {| Types := [ {| TypeName := "Program";
                     Methods := [method_A; method_B] |} ] |}
    (mk_heap [ {| OpCode := OpCodes.Call; Operand := FromBase64String |};
               {| OpCode := OpCodes.Pop; Operand := OpNone |};
               {| OpCode := OpCodes.Ldstr; Operand := OpStr "c2VjcmV0" |};
               {| OpCode := OpCodes.Ldstr; Operand := OpStr "SGVsbG8=" |};
               {| OpCode := OpCodes.Call; Operand := FromBase64String |} ]).

(** The number of occurrences of a match in a match list. *)
Definition occurrences (mt : Match) (calls : list Match) : nat :=
  length (List.filter (fun x => bool_decide (x = mt)) calls).

(** What [main] does with the patcher's result. *)
Definition report (decoded_strings : list (operand * string)) : M unit :=
  match decoded_strings with
  | [] => ret tt
  | _ :: _ =>
      print (PrintTable decoded_strings) ;;;
      print (PrintCount (length decoded_strings)) ;;;
      new_file_path <- save_module ;;
      print (PrintSaved new_file_path)
  end.

(** Two sites, the first with a literal that does not decode, and a
    literal that no call follows. *)
Definition mixed_state : State :=
  loaded "/tmp/sample.exe" (one_method [0; 1; 2; 3; 4])
    (mk_heap [ {| OpCode := OpCodes.Ldstr; Operand := OpStr "not-base64!!" |};
               {| OpCode := OpCodes.Call; Operand := FromBase64String |};
               {| OpCode := OpCodes.Ldstr; Operand := OpStr "SGVsbG8=" |};
               {| OpCode := OpCodes.Call; Operand := FromBase64String |};
               {| OpCode := OpCodes.Ldstr; Operand := OpStr "dW51c2Vk" |} ]).

(** The state the patcher starts from in [main]. *)
Definition scanned (s : State) : State :=
  fst (identify_base64_calls ClrList s).

Definition Main_of (body : list loc) : Method :=
  {| MethodName := "Main"; Body := Some body |}.

(** Whether the patcher changed one of the two instructions of a match. *)
Definition mutated (h h' : gmap Z Instruction) (mt : Match) : bool :=
  negb (bool_decide (h' !! str_insn_of mt = h !! str_insn_of mt
                     /\ h' !! call_insn_of mt = h !! call_insn_of mt)).

(** A literal with a space in it, which is not in the base64 alphabet. *)
Definition space_state : State :=
  loaded "/tmp/sample.exe" (one_method [0; 1])
    (mk_heap [ {| OpCode := OpCodes.Ldstr; Operand := OpStr "SGVs bG8=" |};
               {| OpCode := OpCodes.Call; Operand := FromBase64String |} ]).

(** The characters a strict base64 reader accepts: the alphabet and the
    pad. *)
Definition is_base64_char (c : Z) : bool :=
  (c =? BASE64_PAD) || (table_a2b_base64 c <? 64).

(** The output name as the specification words it: a file beside the
    input, named by the stem of the input's file name, [_decoded], and
    the extension of the input's file name, or [exe] when it has none. *)
Definition claimed_filename (path : string) : string :=
  let named (base : string) :=
    match rsplit1 "."%char base with
    | [stem; ext] => stem +:+ "_decoded." +:+ ext
    | _ => base +:+ "_decoded.exe"
    end in
  match rsplit1 "/"%char path with
  | [dir; base] => dir +:+ "/" +:+ named base
  | _ => named path
  end.

(** A sample without extension in a directory whose name has a dot. *)
Definition dotted_dir_state : State :=
  loaded "/data/v1.2/sample" (one_method [0; 1])
    (mk_heap [ {| OpCode := OpCodes.Ldstr; Operand := OpStr "SGVsbG8=" |};
               {| OpCode := OpCodes.Call; Operand := FromBase64String |} ]).

(** The instruction objects of a module, body after body. *)
Definition all_instructions (md : ModuleDefMD) : list loc :=
  flat_map (fun module_type =>
              flat_map (fun method => default [] (Body method))
                       (Methods module_type))
           (Types md).

(** Whether a character occurs in a text. *)
Fixpoint contains (sep : ascii) (s : string) : bool :=
  match s with
  | EmptyString => false
  | String c s' => Ascii.eqb c sep || contains sep s'
  end.

(** What holds of a match the scanner records, whatever the module:
    the method has a body, the call instruction is in it and is a call
    to the target, and the literal is the instruction the list gives
    at the position before the call's first occurrence, a string
    load. *)
Definition recorded (host : Host) (h : gmap Z Instruction) (mt : Match)
    : Prop :=
  let '(method, c, p) := mt in
  exists instructions,
    Body method = Some instructions
    /\ c ∈ instructions
    /\ p ∈ instructions
    /\ get_Item host instructions (IndexOf instructions c - 1) = Ok p
    /\ is_target_call h c = true
    /\ is_ldstr h p = true.

(** A computation that only appends matches with a given property. *)
Definition appends_with (P : gmap Z Instruction -> Match -> Prop)
    (m : M unit) : Prop :=
  forall (h : gmap Z Instruction) (md : ModuleDefMD),
    exists delta r,
      Forall (P h) delta
      /\ forall s, heap s = h -> file_module (self s) = md ->
                   m s = (add_calls delta s, r).

(** Whether a body starts with a call to the target. *)
Definition starts_with_target (h : gmap Z Instruction) (method : Method)
    : bool :=
  match Body method with
  | Some (first :: _) => is_target_call h first
  | _ => false
  end.

Definition some_body_starts_with_target (h : gmap Z Instruction)
    (md : ModuleDefMD) : bool :=
  existsb (fun module_type =>
             existsb (starts_with_target h) (Methods module_type))
          (Types md).

(** Whether the scanner's index lookup fails at an instruction of a
    body: on a CLR list, at a call to the target that is the first
    element of the body; on a Python sequence, never. *)
Definition raises_at (host : Host) (h : gmap Z Instruction)
    (instructions : list loc) (insn : loc) : bool :=
  match host with
  | ClrList =>
      is_target_call h insn && bool_decide (head instructions = Some insn)
  | PySequence => false
  end.

Definition scan_raises (host : Host) (h : gmap Z Instruction)
    (md : ModuleDefMD) : bool :=
  match host with
  | ClrList => some_body_starts_with_target h md
  | PySequence => false
  end.

(** How the instructions [h'] after the patcher relate to the
    instructions [h] before it, for matches that share no instruction:
    outside the matches nothing changed, a match that decodes has its
    two instructions rewritten, a match that does not has them kept. *)
Definition patched (h h' : gmap Z Instruction) (calls : list Match) : Prop :=
  (forall x, x ∉ slots calls -> h' !! x = h !! x)
  /\ forall mt, mt ∈ calls ->
       match decode_text (Operand (h !!! str_insn_of mt)) with
       | Ok d =>
           h' !!! str_insn_of mt
           = {| OpCode := OpCodes.Ldstr; Operand := OpStr d |}
           /\ h' !!! call_insn_of mt
              = {| OpCode := OpCodes.Nop;
                   Operand := Operand (h !!! call_insn_of mt) |}
       | Raise _ =>
           h' !! str_insn_of mt = h !! str_insn_of mt
           /\ h' !! call_insn_of mt = h !! call_insn_of mt
       end.

(** Text that [str.encode('ascii')] accepts. *)
Definition is_ascii (s : string) : bool :=
  forallb (fun b => b <? 128) (str_bytes s).

(** The characters of the current quad still to come, counted in
    twelfths of an output byte: what the decoding loop has read but not
    yet turned into output. *)
Definition quad_credit (qp : Z) : Z := if qp =? 0 then 0 else 4 - qp.

(** ** [main] from its first line

    What [main] asks of its surroundings before it constructs the
    decoder: whether a path exists, whether it is absolute, what its
    absolute form is, and what [ModuleDefMD.Load] makes of the file
    ([None] when dnlib refuses it). *)
Record Env : Type := {
  os_path_exists : string -> bool;
  os_path_isabs : string -> bool;
  os_path_abspath : string -> string;
  ModuleDefMD_Load : string -> option (ModuleDefMD * gmap Z Instruction)
}.

(** How the program ends: [sys.exit(message)], an exception out of the
    constructor, or the end of [main] on the loaded module. *)
Inductive Exit : Type :=
| SystemExit (message : string)
| LoadFailed
| Ran (s : State) (r : result unit).

Definition main_from_argv (env : Env) (host : Host) (argv : list string)
    : Exit :=
  if (length argv <? 2)%nat
  then SystemExit "[!] Usage: dotnet_base64_decoder.py <dotnet_file_path>"
  else
    let file_path := nth 1 argv "" in
    if negb (os_path_exists env file_path)
    then SystemExit "[-] File not found"
    else
      let file_path :=
        if negb (os_path_isabs env file_path)
        then os_path_abspath env file_path else file_path in
      match ModuleDefMD_Load env file_path with
      | None => LoadFailed
      | Some (md, h) =>
          let '(s, r) := main host (loaded file_path md h) in Ran s r
      end.

(** * Properties *)

Example a2b_hello :
  a2b_base64 (str_bytes "SGVsbG8=") = Ok (str_bytes "Hello").
Proof. reflexivity. Qed.

Example a2b_hello_with_space :
  a2b_base64 (str_bytes "SGVs bG8=") = Ok (str_bytes "Hello").
Proof. reflexivity. Qed.

Example a2b_not_base64 :
  a2b_base64 (str_bytes "not-base64!!") = Raise (BinasciiInvalidLength 9).
Proof. reflexivity. Qed.

Example hello_end_to_end :
  let s' := fst (main ClrList hello_state) in
  view (heap s') [0; 1] =
    [ {| OpCode := OpCodes.Ldstr; Operand := OpStr "Hello" |};
      {| OpCode := OpCodes.Nop; Operand := FromBase64String |} ]
  /\ stdout s' = [ PrintTable [(OpStr "SGVsbG8=", "Hello")]; PrintCount 1;
                   PrintSaved "/tmp/sample_decoded.exe" ].
Proof. vm_compute. split; reflexivity. Qed.

(** ** The scanner only appends to [base64_calls] *)

Lemma add_calls_nil s : add_calls [] s = s.
Proof.
  destruct s as [h [fp fm bc] lg so wr]. unfold add_calls; simpl.
  by rewrite app_nil_r.
Qed.

Lemma add_calls_app d1 d2 s :
  add_calls d2 (add_calls d1 s) = add_calls (d1 ++ d2) s.
Proof. unfold add_calls; simpl. by rewrite app_assoc. Qed.

Lemma appends_only_ret : appends_only (ret tt).
Proof.
  intros h md. exists [], (Ok tt). intros s _ _.
  unfold ret. by rewrite add_calls_nil.
Qed.

Lemma appends_only_seq (m k : M unit) :
  appends_only m -> appends_only k -> appends_only (m ;;; k).
Proof.
  intros Hm Hk h md.
  destruct (Hm h md) as (d1 & r1 & H1).
  destruct (Hk h md) as (d2 & r2 & H2).
  destruct r1 as [[]|e].
  - exists (d1 ++ d2), r2. intros s Hh Hmd.
    unfold bind. rewrite (H1 s Hh Hmd).
    rewrite (H2 (add_calls d1 s)) by done.
    by rewrite add_calls_app.
  - exists d1, (Raise e). intros s Hh Hmd.
    unfold bind. by rewrite (H1 s Hh Hmd).
Qed.

Lemma appends_only_for_each {A} (xs : list A) (body : A -> M unit) :
  (forall x, appends_only (body x)) -> appends_only (for_each xs body).
Proof.
  intros Hb. induction xs as [|x xs IH]; simpl.
  - apply appends_only_ret.
  - by apply appends_only_seq.
Qed.

Lemma appends_only_scan_insn host method instructions insn :
  appends_only (scan_insn host method instructions insn).
Proof.
  intros h md. unfold scan_insn, bind, get_insn, lift.
  destruct (bool_decide (OpCode (h !!! insn) = OpCodes.Call)) eqn:Hc;
    [|exists [], (Ok tt); intros s Hh _; subst h; rewrite Hc; unfold ret;
      by rewrite add_calls_nil].
  destruct (Operand (h !!! insn)) as [|str|n|kind dt nm] eqn:Ho;
    try (exists [], (Ok tt); intros s Hh _; subst h; rewrite Hc, Ho; unfold ret;
         by rewrite add_calls_nil).
  destruct kind;
    try (exists [], (Ok tt); intros s Hh _; subst h; rewrite Hc, Ho; unfold ret;
         by rewrite add_calls_nil).
  destruct (String.eqb dt "System.Convert" && String.eqb nm "FromBase64String")
    eqn:Hn;
    [|exists [], (Ok tt); intros s Hh _; subst h; rewrite Hc, Ho, Hn; unfold ret;
      by rewrite add_calls_nil].
  destruct (get_Item host instructions (IndexOf instructions insn - 1))
    as [prev|e] eqn:Hp;
    [|exists [], (Raise e); intros s Hh _; subst h; rewrite Hc, Ho, Hn;
      by rewrite add_calls_nil].
  destruct (bool_decide (OpCode (h !!! prev) = OpCodes.Ldstr)) eqn:Hl.
  - exists [(method, insn, prev)], (Ok tt). intros s Hh _; subst h.
    rewrite Hc, Ho, Hn. cbn beta iota. by rewrite Hl.
  - exists [], (Ok tt). intros s Hh _; subst h. rewrite Hc, Ho, Hn.
    cbn beta iota. rewrite Hl. unfold ret. by rewrite add_calls_nil.
Qed.

Lemma appends_only_scan_method host method :
  appends_only (scan_method host method).
Proof.
  unfold scan_method, HasBody, Body_Instructions.
  destruct (Body method) as [instructions|]; simpl.
  - intros h md.
    destruct (appends_only_for_each instructions
                (scan_insn host method instructions)
                (appends_only_scan_insn host method instructions) h md)
      as (d & r & H).
    exists d, r. intros s Hh Hmd. unfold bind, ret. by apply H.
  - apply appends_only_ret.
Qed.

Lemma appends_only_identify host : appends_only (identify_base64_calls host).
Proof.
  intros h md.
  destruct (appends_only_for_each (Types md)
              (fun module_type =>
                 for_each (Methods module_type) (scan_method host))
              (fun t => appends_only_for_each (Methods t) (scan_method host)
                          (appends_only_scan_method host)) h md)
    as (d & r & H).
  exists d, r. intros s Hh Hmd.
  unfold identify_base64_calls, bind, gets. rewrite Hmd. by apply H.
Qed.

(** ** The patcher, one match at a time *)

Lemma decode_one_eq acc method call_insn str_insn s :
  decode_one acc (method, call_insn, str_insn) s =
    let base64_str := Operand (heap s !!! str_insn) in
    match decode_text base64_str with
    | Ok d => (set_heap (patch_heap (heap s) call_insn str_insn d) s,
               Ok (acc ++ [(base64_str, d)]))
    | Raise e => (add_log (base64_str, e) s, Ok acc)
    end.
Proof.
  unfold decode_one, decode_text, bind, try_except, get_insn, lift.
  destruct (b64decode (Operand (heap s !!! str_insn))) as [bs|e]; [|done].
  by destruct (decode_utf8 bs).
Qed.

Lemma patch_heap_other h c l d x :
  x ≠ l -> x ≠ c -> patch_heap h c l d !! x = h !! x.
Proof.
  intros Hl Hc. unfold patch_heap.
  by rewrite !lookup_insert_ne.
Qed.

Lemma patch_heap_str h c l d :
  l ≠ c ->
  patch_heap h c l d !!! l = {| OpCode := OpCodes.Ldstr; Operand := OpStr d |}.
Proof.
  intros Hne. unfold patch_heap.
  rewrite lookup_total_insert_ne by done.
  by rewrite !lookup_total_insert_eq.
Qed.

Lemma patch_heap_call h c l d :
  l ≠ c ->
  patch_heap h c l d !!! c
  = {| OpCode := OpCodes.Nop; Operand := Operand (h !!! c) |}.
Proof.
  intros Hne. unfold patch_heap.
  rewrite lookup_total_insert_eq.
  by rewrite !lookup_total_insert_ne.
Qed.

Lemma lookup_total_same (h h' : gmap Z Instruction) x :
  h' !! x = h !! x -> h' !!! x = h !!! x.
Proof. intros H. by rewrite !lookup_total_alt, H. Qed.

(** The loop never raises; it leaves the decoder object, standard
    output and the written files alone, touches no instruction outside
    the slots of its matches, and accounts for every match by a pair or
    by a log record. *)
Lemma patch_loop_total calls : forall acc s,
  exists s' acc',
    for_fold calls acc decode_one s = (s', Ok acc')
    /\ self s' = self s /\ stdout s' = stdout s /\ written s' = written s
    /\ (forall x, x ∉ slots calls -> heap s' !! x = heap s !! x)
    /\ (length acc' + length (log s')
        = length acc + length (log s) + length calls)%nat.
Proof.
  induction calls as [|[[m c] l] calls IH]; intros acc s.
  - exists s, acc. simpl. unfold ret. repeat split; auto with lia.
  - cbn [for_fold]. unfold bind at 1. rewrite decode_one_eq. cbn zeta.
    destruct (decode_text (Operand (heap s !!! l))) as [d|e].
    + destruct (IH (acc ++ [(Operand (heap s !!! l), d)])
                  (set_heap (patch_heap (heap s) c l d) s))
        as (s' & acc' & Hrun & Hself & Hout & Hwr & Hfr & Hlen).
      exists s', acc'. rewrite Hrun. repeat split; auto.
      * intros x Hx. simpl in Hx.
        apply not_elem_of_cons in Hx as [Hxl Hx].
        apply not_elem_of_cons in Hx as [Hxc Hx].
        rewrite (Hfr x Hx). simpl. by apply patch_heap_other.
      * rewrite Hlen, length_app. simpl. lia.
    + destruct (IH acc (add_log (Operand (heap s !!! l), e) s))
        as (s' & acc' & Hrun & Hself & Hout & Hwr & Hfr & Hlen).
      exists s', acc'. rewrite Hrun. repeat split; auto.
      * intros x Hx. simpl in Hx.
        apply not_elem_of_cons in Hx as [Hxl Hx].
        apply not_elem_of_cons in Hx as [Hxc Hx].
        by rewrite (Hfr x Hx).
      * rewrite Hlen. simpl. rewrite length_app. simpl. lia.
Qed.

Lemma slots_elem mt calls :
  mt ∈ calls -> str_insn_of mt ∈ slots calls /\ call_insn_of mt ∈ slots calls.
Proof.
  intros Hin. unfold slots.
  split; apply list_elem_of_In, in_flat_map; exists mt;
    (split; [by apply list_elem_of_In | simpl; auto]).
Qed.

Lemma omap_decoded_pair_cons h m c l calls :
  omap (decoded_pair h) ((m, c, l) :: calls)
  = match decode_text (Operand (h !!! l)) with
    | Ok d => (Operand (h !!! l), d) :: omap (decoded_pair h) calls
    | Raise _ => omap (decoded_pair h) calls
    end.
Proof.
  cbn [omap list_omap]. unfold decoded_pair at 1, str_insn_of at 1 2. simpl.
  by destruct (decode_text (Operand (h !!! l))).
Qed.

Lemma omap_failure_record_cons h m c l calls :
  omap (failure_record h) ((m, c, l) :: calls)
  = match decode_text (Operand (h !!! l)) with
    | Ok _ => omap (failure_record h) calls
    | Raise e => (Operand (h !!! l), e) :: omap (failure_record h) calls
    end.
Proof.
  cbn [omap list_omap]. unfold failure_record at 1, str_insn_of at 1 2. simpl.
  by destruct (decode_text (Operand (h !!! l))).
Qed.

(** When no two matches share an instruction, every match is decided by
    the instructions as they were before the loop. *)
Lemma patch_loop_disjoint calls : forall acc s s' acc',
  NoDup (slots calls) ->
  for_fold calls acc decode_one s = (s', Ok acc') ->
  acc' = acc ++ omap (decoded_pair (heap s)) calls
  /\ log s' = log s ++ omap (failure_record (heap s)) calls
  /\ forall mt, mt ∈ calls ->
       match decode_text (Operand (heap s !!! str_insn_of mt)) with
       | Ok d =>
           heap s' !!! str_insn_of mt
           = {| OpCode := OpCodes.Ldstr; Operand := OpStr d |}
           /\ heap s' !!! call_insn_of mt
              = {| OpCode := OpCodes.Nop;
                   Operand := Operand (heap s !!! call_insn_of mt) |}
       | Raise _ =>
           heap s' !! str_insn_of mt = heap s !! str_insn_of mt
           /\ heap s' !! call_insn_of mt = heap s !! call_insn_of mt
       end.
Proof.
  induction calls as [|[[m c] l] calls IH]; intros acc s s' acc' Hnd Hrun.
  - simpl in Hrun. unfold ret in Hrun. injection Hrun as <- <-.
    simpl. rewrite !app_nil_r. repeat split; auto.
    intros mt Hmt. by apply elem_of_nil in Hmt.
  - change (NoDup (l :: c :: slots calls)) in Hnd.
    apply NoDup_cons in Hnd as [Hl Hnd].
    apply NoDup_cons in Hnd as [Hc Hnd].
    assert (Hlc : l ≠ c) by (intros ->; apply Hl; left).
    apply not_elem_of_cons in Hl as [_ Hl].
    cbn [for_fold] in Hrun. unfold bind at 1 in Hrun.
    rewrite decode_one_eq in Hrun. cbn zeta in Hrun.
    (* the step leaves the slots of the other matches alone *)
    assert (Hstep : forall h1,
      (forall x, x ≠ l -> x ≠ c -> h1 !! x = heap s !! x) ->
      omap (decoded_pair h1) calls = omap (decoded_pair (heap s)) calls
      /\ omap (failure_record h1) calls = omap (failure_record (heap s)) calls
      /\ forall mt, mt ∈ calls ->
           h1 !!! str_insn_of mt = heap s !!! str_insn_of mt
           /\ h1 !!! call_insn_of mt = heap s !!! call_insn_of mt).
    { intros h1 Hh1.
      assert (Hsame : forall mt, mt ∈ calls ->
                h1 !!! str_insn_of mt = heap s !!! str_insn_of mt
                /\ h1 !!! call_insn_of mt = heap s !!! call_insn_of mt).
      { intros mt Hmt. destruct (slots_elem mt calls Hmt) as [Hs Hk].
        split; apply lookup_total_same, Hh1; intros E;
          first [by apply Hl; rewrite <- E | by apply Hc; rewrite <- E]. }
      split; [|split; [|done]].
      - apply list_omap_ext, Forall2_same_length_lookup_2; [done|].
        intros i x y Hx Hy. rewrite Hx in Hy. injection Hy as <-.
        unfold decoded_pair.
        by rewrite (proj1 (Hsame x (list_elem_of_lookup_2 _ _ _ Hx))).
      - apply list_omap_ext, Forall2_same_length_lookup_2; [done|].
        intros i x y Hx Hy. rewrite Hx in Hy. injection Hy as <-.
        unfold failure_record.
        by rewrite (proj1 (Hsame x (list_elem_of_lookup_2 _ _ _ Hx))). }
    rewrite omap_decoded_pair_cons, omap_failure_record_cons.
    destruct (decode_text (Operand (heap s !!! l))) as [d|e] eqn:Hd.
    + destruct (patch_loop_total calls
                  (acc ++ [(Operand (heap s !!! l), d)])
                  (set_heap (patch_heap (heap s) c l d) s))
        as (s2 & acc2 & Hrun2 & _ & _ & _ & Hfr & _).
      rewrite Hrun2 in Hrun. injection Hrun as <- <-.
      destruct (IH _ _ _ _ Hnd Hrun2) as (Hacc & Hlog & Hheap).
      destruct (Hstep (patch_heap (heap s) c l d)) as (Ho1 & Ho2 & Hsame).
      { intros x Hxl Hxc. by apply patch_heap_other. }
      simpl in Hacc, Hlog, Hheap.
      split; [|split].
      * rewrite Hacc, Ho1. simpl. by rewrite <- app_assoc.
      * rewrite Hlog, Ho2. done.
      * intros mt Hmt. apply elem_of_cons in Hmt as [->|Hmt].
        -- unfold str_insn_of, call_insn_of; simpl. rewrite Hd.
           split.
           ++ rewrite (lookup_total_same _ _ _ (Hfr l Hl)). simpl.
              by apply patch_heap_str.
           ++ rewrite (lookup_total_same _ _ _ (Hfr c Hc)). simpl.
              by apply patch_heap_call.
        -- specialize (Hheap mt Hmt). destruct (Hsame mt Hmt) as [Es Ec].
           rewrite Es in Hheap.
           destruct (decode_text (Operand (heap s !!! str_insn_of mt))).
           ++ by rewrite Ec in Hheap.
           ++ destruct (slots_elem mt calls Hmt) as [Hs Hk].
              destruct Hheap as [-> ->].
              split; apply patch_heap_other; intros E;
                first [by apply Hl; rewrite <- E | by apply Hc; rewrite <- E].
    + destruct (patch_loop_total calls acc
                  (add_log (Operand (heap s !!! l), e) s))
        as (s2 & acc2 & Hrun2 & _ & _ & _ & Hfr & _).
      rewrite Hrun2 in Hrun. injection Hrun as <- <-.
      destruct (IH _ _ _ _ Hnd Hrun2) as (Hacc & Hlog & Hheap).
      simpl in Hacc, Hlog, Hheap.
      split; [|split].
      * done.
      * rewrite Hlog. simpl. by rewrite <- app_assoc.
      * intros mt Hmt. apply elem_of_cons in Hmt as [->|Hmt].
        -- unfold str_insn_of, call_insn_of; simpl. rewrite Hd.
           split; [apply (Hfr l Hl) | apply (Hfr c Hc)].
        -- apply (Hheap mt Hmt).
Qed.

(** ** The scanner against its positional reading *)

Lemma IndexOf_middle (pre post : list loc) (c : loc) :
  c ∉ pre -> IndexOf (pre ++ c :: post) c = Z.of_nat (length pre).
Proof.
  induction pre as [|y pre IH]; intros Hn; simpl.
  - by rewrite bool_decide_eq_true_2.
  - apply not_elem_of_cons in Hn as [Hne Hn].
    rewrite bool_decide_eq_false_2 by congruence.
    rewrite (IH Hn).
    destruct (Z.ltb_spec (Z.of_nat (length pre)) 0); lia.
Qed.

Lemma get_Item_prev host (pre post : list loc) (p c : loc) :
  get_Item host ((pre ++ [p]) ++ c :: post)
    (Z.of_nat (length (pre ++ [p])) - 1) = Ok p.
Proof.
  assert (Hlk : ((pre ++ [p]) ++ c :: post) !! length pre = Some p).
  { rewrite <- app_assoc. simpl. by apply list_lookup_middle. }
  assert (Hlen : (length pre < length ((pre ++ [p]) ++ c :: post))%nat).
  { rewrite !length_app. simpl. lia. }
  rewrite length_app. simpl length at 2.
  replace (Z.of_nat (length pre + 1) - 1) with (Z.of_nat (length pre)) by lia.
  unfold get_Item. destruct host.
  - rewrite (proj2 (Z.leb_le _ _)) by lia.
    rewrite (proj2 (Z.ltb_lt _ _)) by lia.
    simpl. by rewrite Nat2Z.id, Hlk.
  - rewrite (proj2 (Z.ltb_ge _ _)) by lia.
    rewrite (proj2 (Z.leb_le _ _)) by lia.
    rewrite (proj2 (Z.ltb_lt _ _)) by lia.
    simpl. by rewrite Nat2Z.id, Hlk.
Qed.

(** An instruction that is not a call to the target is passed over,
    whatever precedes it and whatever the host. *)
Lemma scan_insn_not_target host method instructions insn s :
  is_target_call (heap s) insn = false ->
  scan_insn host method instructions insn s = (s, Ok tt).
Proof.
  unfold is_target_call, scan_insn, bind, get_insn. intros Hnt.
  destruct (bool_decide (OpCode (heap s !!! insn) = OpCodes.Call)); [|done].
  simpl in Hnt.
  destruct (Operand (heap s !!! insn)) as [|str|n|kind dt nm]; try done.
  destruct kind; try done.
  by rewrite Hnt.
Qed.

(** A call to the target with a predecessor in the list. *)
Lemma scan_insn_target host method (pre post : list loc) (p c : loc) s :
  c ∉ pre ++ [p] ->
  is_target_call (heap s) c = true ->
  scan_insn host method ((pre ++ [p]) ++ c :: post) c s
  = (add_calls (if is_ldstr (heap s) p then [(method, c, p)] else []) s,
     Ok tt).
Proof.
  unfold is_target_call, scan_insn, bind, get_insn, lift, is_ldstr.
  intros Hn Ht.
  destruct (bool_decide (OpCode (heap s !!! c) = OpCodes.Call)); [|done].
  simpl in Ht.
  destruct (Operand (heap s !!! c)) as [|str|n|kind dt nm]; try done.
  destruct kind; try done.
  rewrite Ht. rewrite (IndexOf_middle _ _ _ Hn), get_Item_prev.
  destruct (bool_decide (OpCode (heap s !!! p) = OpCodes.Ldstr)).
  - done.
  - unfold ret. by rewrite add_calls_nil.
Qed.

Lemma scan_body_spec host method (post : list loc) :
  forall (pre : list loc) s,
    NoDup (pre ++ post) ->
    (pre = [] -> match post with
                 | [] => True
                 | first :: _ => is_target_call (heap s) first = false
                 end) ->
    for_each post (scan_insn host method (pre ++ post)) s
    = (add_calls (spec_scan_body (heap s) method (last pre) post) s, Ok tt).
Proof.
  induction post as [|c post IH]; intros pre s Hnd Hfirst.
  - simpl. unfold ret. by rewrite add_calls_nil.
  - cbn [for_each spec_scan_body]. unfold bind at 1.
    assert (Hc : c ∉ pre).
    { apply NoDup_app in Hnd as (_ & Hd & _). intros Hin.
      apply (Hd c Hin). left. }
    assert (Hnext : forall s1, heap s1 = heap s ->
      for_each post (scan_insn host method (pre ++ c :: post)) s1
      = (add_calls (spec_scan_body (heap s) method (Some c) post) s1, Ok tt)).
    { intros s1 Hh.
      replace (pre ++ c :: post) with ((pre ++ [c]) ++ post)
        by (by rewrite <- app_assoc).
      rewrite IH.
      - by rewrite last_snoc, Hh.
      - by rewrite <- app_assoc.
      - intros Hnil. by destruct pre. }
    destruct (is_target_call (heap s) c) eqn:Ht.
    + destruct pre as [|p pre' _] using rev_ind.
      { specialize (Hfirst eq_refl). simpl in Hfirst. congruence. }
      rewrite scan_insn_target by done.
      rewrite last_snoc. cbn [andb].
      rewrite Hnext by done.
      by rewrite add_calls_app.
    + rewrite scan_insn_not_target by done.
      rewrite Hnext by done.
      by destruct (last pre).
Qed.

Lemma scan_method_spec host method s :
  method_ok (heap s) method = true ->
  scan_method host method s
  = (add_calls (spec_scan_method (heap s) method) s, Ok tt).
Proof.
  unfold method_ok, scan_method, spec_scan_method, HasBody, Body_Instructions.
  destruct (Body method) as [instructions|]; simpl.
  - unfold body_ok. intros [Hnd Hfirst]%andb_true_iff.
    apply bool_decide_eq_true_1 in Hnd.
    unfold bind, ret.
    apply (scan_body_spec host method instructions [] s); [done|].
    intros _. destruct instructions; [done|].
    by apply negb_true_iff.
  - intros _. unfold ret. by rewrite add_calls_nil.
Qed.

Lemma scan_methods_spec host (methods : list Method) : forall s,
  forallb (method_ok (heap s)) methods = true ->
  for_each methods (scan_method host) s
  = (add_calls (flat_map (spec_scan_method (heap s)) methods) s, Ok tt).
Proof.
  induction methods as [|m methods IH]; intros s Hok; simpl.
  - unfold ret. by rewrite add_calls_nil.
  - simpl in Hok. apply andb_true_iff in Hok as [Hm Hok].
    unfold bind. rewrite scan_method_spec by done.
    rewrite IH by done. simpl. by rewrite add_calls_app.
Qed.

Lemma identify_spec host s :
  module_ok (heap s) (file_module (self s)) = true ->
  identify_base64_calls host s
  = (add_calls (spec_scan (heap s) (file_module (self s))) s, Ok tt).
Proof.
  unfold identify_base64_calls, bind, gets, module_ok, spec_scan.
  generalize (Types (file_module (self s))). intros types.
  revert s. induction types as [|t types IH]; intros s Hok; simpl.
  - unfold ret. by rewrite add_calls_nil.
  - simpl in Hok. apply andb_true_iff in Hok as [Ht Hok].
    unfold bind. rewrite scan_methods_spec by done.
    rewrite IH by done. simpl. by rewrite add_calls_app.
Qed.

(** The positional scan emits exactly the sites. *)
Lemma spec_scan_body_elem h method (rest : list loc) :
  forall (prev : option loc) (mt : Match),
    mt ∈ spec_scan_body h method prev rest <->
    exists c p, mt = (method, c, p)
      /\ is_target_call h c = true /\ is_ldstr h p = true
      /\ ((prev = Some p /\ rest !! 0%nat = Some c)
          \/ exists i : nat, rest !! i = Some p /\ rest !! S i = Some c).
Proof.
  induction rest as [|x rest IH]; intros prev mt; simpl.
  - split.
    + intros H. by apply elem_of_nil in H.
    + intros (c & p & _ & _ & _ & [[_ H]|(i & H & _)]); done.
  - rewrite elem_of_app, IH. split.
    + intros [H|(c & p & -> & Ht & Hl & H)].
      * destruct prev as [p|]; [|by apply elem_of_nil in H].
        destruct (is_target_call h x && is_ldstr h p) eqn:E;
          [|by apply elem_of_nil in H].
        apply list_elem_of_singleton in H as ->.
        apply andb_true_iff in E as [Ht Hl].
        exists x, p. repeat split; auto.
      * exists c, p. repeat split; auto. right.
        destruct H as [[Hp Hc]|(i & Hp & Hc)].
        -- exists 0%nat. injection Hp as ->. auto.
        -- exists (S i). auto.
    + intros (c & p & -> & Ht & Hl & [[-> Hc]|(i & Hp & Hc)]).
      * left. simpl in Hc. injection Hc as ->.
        rewrite Ht, Hl. simpl. by apply list_elem_of_singleton.
      * right. exists c, p. repeat split; auto.
        destruct i as [|i]; simpl in Hp, Hc.
        -- left. injection Hp as ->. auto.
        -- right. exists i. auto.
Qed.

Lemma spec_scan_elem h md (mt : Match) :
  mt ∈ spec_scan h md <-> site h md mt.
Proof.
  unfold spec_scan, site. destruct mt as [[method c] p].
  rewrite list_elem_of_In, in_flat_map. split.
  - intros (t & Ht & Hin). apply in_flat_map in Hin as (m & Hm & Hin).
    unfold spec_scan_method in Hin.
    destruct (Body m) as [ins|] eqn:Hb; [|done].
    apply list_elem_of_In, spec_scan_body_elem in Hin
      as (c' & p' & E & Htc & Hl & [[? _]|(i & Hp & Hc)]); [done|].
    injection E as <- <- <-.
    exists t, ins, i. repeat split; auto; by apply list_elem_of_In.
  - intros (t & ins & i & Ht & Hm & Hb & Hp & Hc & Htc & Hl).
    exists t. split; [by apply list_elem_of_In|].
    apply in_flat_map. exists method. split; [by apply list_elem_of_In|].
    unfold spec_scan_method. rewrite Hb.
    apply list_elem_of_In, spec_scan_body_elem.
    exists c, p. repeat split; auto. right. eauto.
Qed.

(** ** What the scanner hands to the patcher

    On a module whose instruction objects are all distinct, the matches
    of the positional scan share no instruction, and their calls are
    calls: the conditions under which the patcher is studied below. *)

Lemma scan_body_calls_sublist h method (rest : list loc) : forall prev,
  map call_insn_of (spec_scan_body h method prev rest) `sublist_of` rest.
Proof.
  induction rest as [|x rest IH]; intros prev; simpl; [done|].
  rewrite map_app.
  destruct prev as [p|]; [destruct (is_target_call h x && is_ldstr h p)|];
    simpl; first [by apply sublist_skip | by apply sublist_cons].
Qed.

Lemma scan_body_strs_sublist h method (rest : list loc) : forall prev,
  map str_insn_of (spec_scan_body h method prev rest)
  `sublist_of` match prev with Some p => p :: rest | None => rest end.
Proof.
  induction rest as [|x rest IH]; intros prev; simpl.
  - apply sublist_nil_l.
  - rewrite map_app. specialize (IH (Some x)).
    destruct prev as [p|]; [destruct (is_target_call h x && is_ldstr h p)|];
      simpl; first [by apply sublist_skip | by apply sublist_cons | done].
Qed.

Lemma scan_sublists h md :
  map call_insn_of (spec_scan h md) `sublist_of` all_instructions md
  /\ map str_insn_of (spec_scan h md) `sublist_of` all_instructions md.
Proof.
  unfold spec_scan, all_instructions.
  induction (Types md) as [|t types [IHc IHs]]; simpl; [done|].
  rewrite !map_app.
  assert (Hm : map call_insn_of (flat_map (spec_scan_method h) (Methods t))
               `sublist_of`
               flat_map (fun method => default [] (Body method)) (Methods t)
               /\ map str_insn_of (flat_map (spec_scan_method h) (Methods t))
                  `sublist_of`
                  flat_map (fun method => default [] (Body method)) (Methods t)).
  { induction (Methods t) as [|m methods [IHmc IHms]]; simpl; [done|].
    rewrite !map_app. unfold spec_scan_method at 1 3.
    destruct (Body m) as [ins|]; simpl.
    - split; apply sublist_app; auto.
      + apply scan_body_calls_sublist.
      + apply (scan_body_strs_sublist h m ins None).
    - done. }
  destruct Hm. split; by apply sublist_app.
Qed.

Lemma slots_Permutation (calls : list Match) :
  slots calls ≡ₚ map str_insn_of calls ++ map call_insn_of calls.
Proof.
  induction calls as [|mt calls IH]; simpl; [done|].
  rewrite IH. constructor. apply Permutation_middle.
Qed.

Lemma scan_matches_disjoint h md :
  NoDup (all_instructions md) ->
  NoDup (slots (spec_scan h md))
  /\ Forall (fun mt => OpCode (h !!! call_insn_of mt) = OpCodes.Call)
            (spec_scan h md).
Proof.
  intros Hnd.
  assert (Hsites : forall mt, mt ∈ spec_scan h md ->
            is_target_call h (call_insn_of mt) = true
            /\ is_ldstr h (str_insn_of mt) = true).
  { intros [[m c] p] Hin. apply spec_scan_elem in Hin.
    destruct Hin as (t & ins & i & _ & _ & _ & _ & _ & Ht & Hl). done. }
  destruct (scan_sublists h md) as [Hc Hs].
  split.
  - rewrite slots_Permutation. apply NoDup_app. split; [|split].
    + by apply (sublist_NoDup _ _ Hnd Hs).
    + intros x (m1 & -> & H1)%list_elem_of_fmap (m2 & E & H2)%list_elem_of_fmap.
      destruct (Hsites m1 H1) as [_ Hl]. destruct (Hsites m2 H2) as [Ht _].
      rewrite <- E in Ht. unfold is_target_call in Ht. unfold is_ldstr in Hl.
      apply andb_true_iff in Ht as [Ht _].
      apply bool_decide_eq_true_1 in Ht. apply bool_decide_eq_true_1 in Hl.
      congruence.
    + by apply (sublist_NoDup _ _ Hnd Hc).
  - apply Forall_forall. intros mt Hin. destruct (Hsites mt Hin) as [Ht _].
    unfold is_target_call in Ht. apply andb_true_iff in Ht as [Ht _].
    by apply bool_decide_eq_true_1 in Ht.
Qed.

(** After the scan of a freshly constructed decoder, the match list
    meets the conditions of the patcher's theorems. *)
Lemma scan_establishes_patcher_conditions host s :
  module_ok (heap s) (file_module (self s)) = true ->
  NoDup (all_instructions (file_module (self s))) ->
  base64_calls (self s) = [] ->
  exists s1,
    identify_base64_calls host s = (s1, Ok tt)
    /\ heap s1 = heap s
    /\ base64_calls (self s1) = spec_scan (heap s) (file_module (self s))
    /\ NoDup (slots (base64_calls (self s1)))
    /\ Forall (fun mt => OpCode (heap s1 !!! call_insn_of mt) = OpCodes.Call)
              (base64_calls (self s1)).
Proof.
  intros Hok Hnd Hnil.
  exists (add_calls (spec_scan (heap s) (file_module (self s))) s).
  split; [by apply identify_spec|]. split; [done|].
  simpl. rewrite Hnil. simpl.
  destruct (scan_matches_disjoint (heap s) _ Hnd) as [H1 H2]. done.
Qed.

(** * The claims *)

(** ** The scanner *)

(** C1 (the code departs from it).  A body that starts with the call to
    the target makes the scanner index position -1.  Where the list
    counts a negative index from the end, the call of method [A] is
    matched with the unrelated literal at the tail of the body, and the
    patcher then rewrites both; where the list refuses the index, the
    exception leaves [identify_base64_calls] and [main] altogether, so
    the site of method [B] is never scanned.  In neither case is the
    call skipped or the error kept to the method. *)
Theorem C1_call_in_first_position :
  base64_calls (self (fst (identify_base64_calls PySequence first_call_state)))
    = [(method_A, 0, 2); (method_B, 4, 3)]
  /\ view (heap (fst (main PySequence first_call_state))) [0; 1; 2]
     = [ {| OpCode := OpCodes.Nop; Operand := FromBase64String |};
         {| OpCode := OpCodes.Pop; Operand := OpNone |};
         {| OpCode := OpCodes.Ldstr; Operand := OpStr "secret" |} ]
  /\ identify_base64_calls ClrList first_call_state
     = (first_call_state, Raise ArgumentOutOfRangeException)
  /\ main ClrList first_call_state
     = (first_call_state, Raise ArgumentOutOfRangeException).
Proof. vm_compute. repeat split. Qed.

(** C2, as stated, fails: a call whose operand carries the declaring
    type [System.Convert] and the name [FromBase64String] and which
    directly follows a string-literal load emits no match when the
    operand is a [MethodDef]; the scanner leaves the state as it was. *)
Lemma C2_counterexample_method_def_operand :
  names_target (heap methoddef_state) 1 = true
  /\ is_ldstr (heap methoddef_state) 0 = true
  /\ identify_base64_calls ClrList methoddef_state
     = (methoddef_state, Ok tt)
  /\ identify_base64_calls PySequence methoddef_state
     = (methoddef_state, Ok tt).
Proof. vm_compute. repeat split. Qed.

(** C2 (amended).  On a module whose bodies hold no instruction object
    twice and do not start with a call to the target, the scanner
    completes and appends, in instruction order, exactly the sites: the
    matches [(method, c, p)] where [c] directly follows [p] in the body
    of [method], [c] has opcode [call] and a [MemberRef] operand with
    declaring type [System.Convert] and name [FromBase64String], and
    [p] has opcode [ldstr].  An instruction that is not such a call
    emits nothing whatever precedes it, and a method without a body
    contributes nothing and its body is not read. *)
Theorem C2_scanner_emits_exactly_the_sites (host : Host) (s : State) :
  module_ok (heap s) (file_module (self s)) = true ->
  identify_base64_calls host s
  = (add_calls (spec_scan (heap s) (file_module (self s))) s, Ok tt)
  /\ (forall mt : Match,
        mt ∈ spec_scan (heap s) (file_module (self s))
        <-> site (heap s) (file_module (self s)) mt)
  /\ (forall method instructions insn s0,
        is_target_call (heap s0) insn = false ->
        scan_insn host method instructions insn s0 = (s0, Ok tt))
  /\ (forall method s0,
        HasBody method = false ->
        scan_method host method s0 = (s0, Ok tt)).
Proof.
  intros Hok. split; [by apply identify_spec|].
  split; [intros mt; apply spec_scan_elem|].
  split; [intros; by apply scan_insn_not_target|].
  intros method s0 Hb. unfold scan_method. by rewrite Hb.
Qed.

Lemma C2_witness_hello :
  identify_base64_calls ClrList hello_state
  = (add_calls (spec_scan (heap hello_state) (file_module (self hello_state)))
       hello_state, Ok tt)
  /\ (forall mt : Match,
        mt ∈ spec_scan (heap hello_state) (file_module (self hello_state))
        <-> site (heap hello_state) (file_module (self hello_state)) mt)
  /\ (forall method instructions insn s0,
        is_target_call (heap s0) insn = false ->
        scan_insn ClrList method instructions insn s0 = (s0, Ok tt))
  /\ (forall method s0,
        HasBody method = false ->
        scan_method ClrList method s0 = (s0, Ok tt)).
Proof.
  apply (C2_scanner_emits_exactly_the_sites ClrList hello_state).
  vm_compute. reflexivity.
Defined.

(** C6.  The scanner changes nothing but [base64_calls]: the
    instructions, the module, the log, the output and the files are
    those it started from, whichever way it ends.  [main] runs it to
    completion first: the patcher starts on the unmodified instructions
    with the complete match list, and does not start when the scan
    raised. *)
Theorem C6_scan_does_not_mutate (host : Host) (s : State) :
  exists (delta : list Match) (r : result unit),
    identify_base64_calls host s = (add_calls delta s, r)
    /\ heap (add_calls delta s) = heap s
    /\ file_module (self (add_calls delta s)) = file_module (self s)
    /\ base64_calls (self (add_calls delta s)) = base64_calls (self s) ++ delta
    /\ main host s
       = match r with
         | Ok _ =>
             (decoded_strings <- decode_base64_strings ;;
              report decoded_strings) (add_calls delta s)
         | Raise e => (add_calls delta s, Raise e)
         end.
Proof.
  destruct (appends_only_identify host (heap s) (file_module (self s)))
    as (delta & r & H).
  exists delta, r. rewrite (H s) by done.
  repeat split; auto.
  unfold main, bind at 1. rewrite (H s) by done.
  by destruct r.
Qed.

Lemma occurrences_app mt (l1 l2 : list Match) :
  occurrences mt (l1 ++ l2) = (occurrences mt l1 + occurrences mt l2)%nat.
Proof. unfold occurrences. by rewrite List.filter_app, length_app. Qed.

Lemma decode_base64_strings_eq s :
  decode_base64_strings s = for_fold (base64_calls (self s)) [] decode_one s.
Proof. reflexivity. Qed.

(** C10.  A scan appends to [base64_calls] and never resets it.  What a
    scan appends depends on the instructions and the module alone, so a
    second scan on the same decoder appends the same matches again and
    ends the same way: every match of the first scan is then in the list
    twice, and the patcher, which takes the list as it is, handles two
    entries per site, each ending in a pair or in a log record.  On the
    [Hello] module the second entry finds the literal already replaced
    and logs a failure for it. *)
Theorem C10_second_scan_appends_again (host : Host) (s : State) :
  exists (delta : list Match) (r : result unit),
    identify_base64_calls host s = (add_calls delta s, r)
    /\ identify_base64_calls host (add_calls delta s)
       = (add_calls (delta ++ delta) s, r)
    /\ base64_calls (self (add_calls (delta ++ delta) s))
       = base64_calls (self s) ++ delta ++ delta
    /\ (forall mt, occurrences mt (delta ++ delta)
                   = (2 * occurrences mt delta)%nat)
    /\ (exists s' decoded_strings,
          decode_base64_strings (add_calls (delta ++ delta) s)
          = (s', Ok decoded_strings)
          /\ (length decoded_strings + length (log s')
              = length (log s) + length (base64_calls (self s))
                + 2 * length delta)%nat)
    /\ (let run := (identify_base64_calls host ;;; identify_base64_calls host
                    ;;; decode_base64_strings) hello_state in
        base64_calls (self (fst run))
        = [ ({| MethodName := "Main"; Body := Some [0; 1] |}, 1, 0);
            ({| MethodName := "Main"; Body := Some [0; 1] |}, 1, 0) ]
        /\ snd run = Ok [(OpStr "SGVsbG8=", "Hello")]
        /\ log (fst run) = [(OpStr "Hello", BinasciiInvalidLength 5)]).
Proof.
  destruct (appends_only_identify host (heap s) (file_module (self s)))
    as (delta & r & H).
  exists delta, r.
  split; [by apply H|].
  split; [rewrite (H (add_calls delta s)) by done; by rewrite add_calls_app|].
  split; [done|].
  split; [intros mt; rewrite occurrences_app; lia|].
  split.
  - rewrite decode_base64_strings_eq.
    destruct (patch_loop_total
                (base64_calls (self (add_calls (delta ++ delta) s))) []
                (add_calls (delta ++ delta) s))
      as (s' & acc' & Hrun & _ & _ & _ & _ & Hlen).
    exists s', acc'. split; [done|].
    rewrite Hlen. simpl. rewrite !length_app. lia.
  - destruct host; vm_compute; repeat split.
Qed.

(** ** The patcher *)

Lemma decoded_pair_elem h (calls : list Match) mt d :
  mt ∈ calls ->
  decode_text (Operand (h !!! str_insn_of mt)) = Ok d ->
  (Operand (h !!! str_insn_of mt), d) ∈ omap (decoded_pair h) calls.
Proof.
  intros Hin Hd. apply list_elem_of_omap. exists mt. split; [done|].
  unfold decoded_pair. by rewrite Hd.
Qed.

Lemma decoded_pair_sound h (calls : list Match) op d :
  (op, d) ∈ omap (decoded_pair h) calls -> decode_text op = Ok d.
Proof.
  intros (mt & _ & Hp)%list_elem_of_omap. unfold decoded_pair in Hp.
  destruct (decode_text (Operand (h !!! str_insn_of mt))) eqn:E; [|done].
  injection Hp as <- <-. done.
Qed.

Lemma failure_record_elem h (calls : list Match) mt e :
  mt ∈ calls ->
  decode_text (Operand (h !!! str_insn_of mt)) = Raise e ->
  (Operand (h !!! str_insn_of mt), e) ∈ omap (failure_record h) calls.
Proof.
  intros Hin Hd. apply list_elem_of_omap. exists mt. split; [done|].
  unfold failure_record. by rewrite Hd.
Qed.

(** C3.  With matches that share no instruction, as the scanner records
    them, a match whose literal decodes under base64 and then UTF-8 ends
    with the literal instruction loading the decoded text, still as a
    [ldstr], with the call instruction turned into a [nop], and with the
    pair of the encoded and the decoded text in the result.  On the
    body [ldstr "SGVsbG8="; call FromBase64String] the scanner and the
    patcher yield the pair for [Hello] and the body [ldstr "Hello"; nop]. *)
Theorem C3_patcher_rewrites_decodable_match
    (s : State) (mt : Match) (decoded_str : string) :
  NoDup (slots (base64_calls (self s))) ->
  mt ∈ base64_calls (self s) ->
  decode_text (Operand (heap s !!! str_insn_of mt)) = Ok decoded_str ->
  (exists s' decoded_strings,
     decode_base64_strings s = (s', Ok decoded_strings)
     /\ heap s' !!! str_insn_of mt
        = {| OpCode := OpCodes.Ldstr; Operand := OpStr decoded_str |}
     /\ heap s' !!! call_insn_of mt
        = {| OpCode := OpCodes.Nop;
             Operand := Operand (heap s !!! call_insn_of mt) |}
     /\ (Operand (heap s !!! str_insn_of mt), decoded_str) ∈ decoded_strings)
  /\ (let run := (identify_base64_calls ClrList ;;; decode_base64_strings)
                   hello_state in
      snd run = Ok [(OpStr "SGVsbG8=", "Hello")]
      /\ view (heap (fst run)) [0; 1]
         = [ {| OpCode := OpCodes.Ldstr; Operand := OpStr "Hello" |};
             {| OpCode := OpCodes.Nop; Operand := FromBase64String |} ]).
Proof.
  intros Hnd Hin Hd. split; [|vm_compute; by split].
  rewrite decode_base64_strings_eq.
  destruct (patch_loop_total (base64_calls (self s)) [] s)
    as (s' & acc' & Hrun & _).
  destruct (patch_loop_disjoint _ _ _ _ _ Hnd Hrun) as (Hacc & _ & Hheap).
  exists s', acc'. split; [done|].
  specialize (Hheap mt Hin). rewrite Hd in Hheap. destruct Hheap as [Hs Hc].
  repeat split; auto.
  rewrite Hacc. simpl. by apply decoded_pair_elem.
Qed.

Lemma C3_witness_hello :
  (exists s' decoded_strings,
     decode_base64_strings (scanned hello_state) = (s', Ok decoded_strings)
     /\ heap s' !!! 0
        = {| OpCode := OpCodes.Ldstr; Operand := OpStr "Hello" |}
     /\ heap s' !!! 1
        = {| OpCode := OpCodes.Nop;
             Operand := Operand (heap (scanned hello_state) !!! 1) |}
     /\ (Operand (heap (scanned hello_state) !!! 0), "Hello") ∈ decoded_strings)
  /\ (let run := (identify_base64_calls ClrList ;;; decode_base64_strings)
                   hello_state in
      snd run = Ok [(OpStr "SGVsbG8=", "Hello")]
      /\ view (heap (fst run)) [0; 1]
         = [ {| OpCode := OpCodes.Ldstr; Operand := OpStr "Hello" |};
             {| OpCode := OpCodes.Nop; Operand := FromBase64String |} ]).
Proof.
  apply (C3_patcher_rewrites_decodable_match
           (scanned hello_state) (Main_of [0; 1], 1, 0) "Hello").
  - apply (bool_decide_unpack _). vm_compute. exact I.
  - apply (bool_decide_unpack _). vm_compute. exact I.
  - vm_compute. reflexivity.
Defined.

(** C4.  With matches that share no instruction, a match whose literal
    does not decode (the text is not ASCII, base64 rejects it, or the
    bytes are not UTF-8) leaves its two instructions as they were, adds
    no pair for its text to the result, and is logged with the text and
    the exception.  The loop goes on: the result holds a pair for every
    match that decodes, the log a record for every one that does not,
    and every match that decodes is rewritten. *)
Theorem C4_patcher_skips_undecodable_match
    (s : State) (mt : Match) (e : PyExn) :
  NoDup (slots (base64_calls (self s))) ->
  mt ∈ base64_calls (self s) ->
  decode_text (Operand (heap s !!! str_insn_of mt)) = Raise e ->
  exists s' decoded_strings,
    decode_base64_strings s = (s', Ok decoded_strings)
    /\ heap s' !! str_insn_of mt = heap s !! str_insn_of mt
    /\ heap s' !! call_insn_of mt = heap s !! call_insn_of mt
    /\ (forall d, (Operand (heap s !!! str_insn_of mt), d) ∉ decoded_strings)
    /\ (Operand (heap s !!! str_insn_of mt), e) ∈ log s'
    /\ decoded_strings = omap (decoded_pair (heap s)) (base64_calls (self s))
    /\ log s' = log s ++ omap (failure_record (heap s)) (base64_calls (self s))
    /\ (forall mt' d',
          mt' ∈ base64_calls (self s) ->
          decode_text (Operand (heap s !!! str_insn_of mt')) = Ok d' ->
          heap s' !!! str_insn_of mt'
          = {| OpCode := OpCodes.Ldstr; Operand := OpStr d' |}
          /\ OpCode (heap s' !!! call_insn_of mt') = OpCodes.Nop).
Proof.
  intros Hnd Hin Hd.
  rewrite decode_base64_strings_eq.
  destruct (patch_loop_total (base64_calls (self s)) [] s)
    as (s' & acc' & Hrun & _).
  destruct (patch_loop_disjoint _ _ _ _ _ Hnd Hrun) as (Hacc & Hlog & Hheap).
  exists s', acc'. split; [done|].
  pose proof (Hheap mt Hin) as Hmt. rewrite Hd in Hmt. destruct Hmt as [Hs Hc].
  simpl in Hacc.
  split; [done|]. split; [done|]. split; [|split; [|split; [done|split; [done|]]]].
  - intros d Hp. rewrite Hacc in Hp.
    apply decoded_pair_sound in Hp. congruence.
  - rewrite Hlog. apply elem_of_app. right. by apply failure_record_elem.
  - intros mt' d' Hin' Hd'. specialize (Hheap mt' Hin').
    rewrite Hd' in Hheap. destruct Hheap as [Hs' Hc'].
    split; [done|]. by rewrite Hc'.
Qed.

Lemma C4_witness_mixed :
  exists s' decoded_strings,
    decode_base64_strings (scanned mixed_state) = (s', Ok decoded_strings)
    /\ heap s' !! 0 = heap (scanned mixed_state) !! 0
    /\ heap s' !! 1 = heap (scanned mixed_state) !! 1
    /\ (forall d,
          (Operand (heap (scanned mixed_state) !!! 0), d) ∉ decoded_strings)
    /\ (Operand (heap (scanned mixed_state) !!! 0), BinasciiInvalidLength 9)
       ∈ log s'
    /\ decoded_strings
       = omap (decoded_pair (heap (scanned mixed_state)))
              (base64_calls (self (scanned mixed_state)))
    /\ log s'
       = log (scanned mixed_state)
         ++ omap (failure_record (heap (scanned mixed_state)))
                 (base64_calls (self (scanned mixed_state)))
    /\ (forall mt' d',
          mt' ∈ base64_calls (self (scanned mixed_state)) ->
          decode_text (Operand (heap (scanned mixed_state) !!! str_insn_of mt'))
          = Ok d' ->
          heap s' !!! str_insn_of mt'
          = {| OpCode := OpCodes.Ldstr; Operand := OpStr d' |}
          /\ OpCode (heap s' !!! call_insn_of mt') = OpCodes.Nop).
Proof.
  apply (C4_patcher_skips_undecodable_match
           (scanned mixed_state) (Main_of [0; 1; 2; 3; 4], 1, 0)
           (BinasciiInvalidLength 9)).
  - apply (bool_decide_unpack _). vm_compute. exact I.
  - apply (bool_decide_unpack _). vm_compute. exact I.
  - vm_compute. reflexivity.
Defined.

Lemma report_heap decoded_strings s :
  heap (fst (report decoded_strings s)) = heap s.
Proof. by destruct decoded_strings. Qed.

Lemma slots_elem_inv (calls : list Match) x :
  x ∈ slots calls ->
  exists mt, mt ∈ calls /\ (x = str_insn_of mt \/ x = call_insn_of mt).
Proof.
  unfold slots. rewrite list_elem_of_In, in_flat_map.
  intros (mt & Hin & Hx). exists mt. split; [by apply list_elem_of_In|].
  simpl in Hx. destruct Hx as [<-|[<-|[]]]; auto.
Qed.

(** A string-literal load that is the literal of no site is left alone
    by the whole run of [main]. *)
Lemma main_leaves_other_literals host s (l : loc) :
  module_ok (heap s) (file_module (self s)) = true ->
  base64_calls (self s) = [] ->
  is_ldstr (heap s) l = true ->
  (forall mt, site (heap s) (file_module (self s)) mt -> str_insn_of mt ≠ l) ->
  heap (fst (main host s)) !! l = heap s !! l.
Proof.
  intros Hok Hnil Hl Hsite.
  unfold main, bind at 1. rewrite identify_spec by done.
  unfold bind. rewrite decode_base64_strings_eq.
  set (s1 := add_calls (spec_scan (heap s) (file_module (self s))) s).
  destruct (patch_loop_total (base64_calls (self s1)) [] s1)
    as (s' & acc' & Hrun & _ & _ & _ & Hfr & _).
  rewrite Hrun.
  change (heap (fst (report acc' s')) !! l = heap s !! l).
  rewrite report_heap, Hfr; [done|].
  intros (mt & Hin & Hx)%slots_elem_inv.
  simpl in Hin. rewrite Hnil in Hin. simpl in Hin.
  apply spec_scan_elem in Hin.
  destruct Hx as [Hx|Hx]; [by apply (Hsite mt)|].
  destruct mt as [[m c] p]. destruct Hin as (t & ins & i & _ & _ & _ & _ & _ & Ht & _).
  unfold call_insn_of in Hx; simpl in Hx. subst c.
  unfold is_target_call in Ht. unfold is_ldstr in Hl.
  apply andb_true_iff in Ht as [Ht _].
  apply bool_decide_eq_true_1 in Ht. apply bool_decide_eq_true_1 in Hl.
  congruence.
Qed.

(** C5.  With N matches that share no instruction and whose call
    instructions are calls, as the scanner records them, of which M
    decode: the result has M pairs, the matches with a changed
    instruction are exactly the M that decode, the two instructions of
    each of the other N - M are as they were, and so is every
    instruction outside the slots of the matches that decode.  Over a
    whole run of [main], a string-literal load that no call to the
    target directly follows is left as it was. *)
Theorem C5_patcher_mutates_exactly_decoded_pairs (s : State) :
  NoDup (slots (base64_calls (self s))) ->
  Forall (fun mt => OpCode (heap s !!! call_insn_of mt) = OpCodes.Call)
         (base64_calls (self s)) ->
  exists s' decoded_strings,
    decode_base64_strings s = (s', Ok decoded_strings)
    /\ length decoded_strings
       = length (List.filter (decodes (heap s)) (base64_calls (self s)))
    /\ (length (List.filter (decodes (heap s)) (base64_calls (self s)))
        <= length (base64_calls (self s)))%nat
    /\ List.filter (mutated (heap s) (heap s')) (base64_calls (self s))
       = List.filter (decodes (heap s)) (base64_calls (self s))
    /\ (forall mt,
          mt ∈ base64_calls (self s) -> decodes (heap s) mt = false ->
          heap s' !! str_insn_of mt = heap s !! str_insn_of mt
          /\ heap s' !! call_insn_of mt = heap s !! call_insn_of mt)
    /\ (forall x,
          x ∉ slots (List.filter (decodes (heap s)) (base64_calls (self s))) ->
          heap s' !! x = heap s !! x)
    /\ (forall host s0 (l : loc),
          module_ok (heap s0) (file_module (self s0)) = true ->
          base64_calls (self s0) = [] ->
          is_ldstr (heap s0) l = true ->
          (forall mt, site (heap s0) (file_module (self s0)) mt ->
                      str_insn_of mt ≠ l) ->
          heap (fst (main host s0)) !! l = heap s0 !! l).
Proof.
  intros Hnd Hcall.
  rewrite decode_base64_strings_eq.
  destruct (patch_loop_total (base64_calls (self s)) [] s)
    as (s' & acc' & Hrun & _ & _ & _ & Hfr & _).
  destruct (patch_loop_disjoint _ _ _ _ _ Hnd Hrun) as (Hacc & _ & Hheap).
  exists s', acc'. split; [done|].
  assert (Hfail : forall mt,
    mt ∈ base64_calls (self s) -> decodes (heap s) mt = false ->
    heap s' !! str_insn_of mt = heap s !! str_insn_of mt
    /\ heap s' !! call_insn_of mt = heap s !! call_insn_of mt).
  { intros mt Hin Hdec. specialize (Hheap mt Hin). unfold decodes in Hdec.
    by destruct (decode_text (Operand (heap s !!! str_insn_of mt))). }
  split; [|split; [|split; [|split; [done|split]]]].
  - rewrite Hacc. simpl. clear.
    induction (base64_calls (self s)) as [|mt calls IH]; [done|].
    cbn [omap list_omap List.filter]. unfold decoded_pair at 1, decodes at 1.
    destruct (decode_text (Operand (heap s !!! str_insn_of mt))); simpl;
      by rewrite IH.
  - apply List.filter_length_le.
  - apply List.filter_ext_in. intros mt Hin%list_elem_of_In.
    unfold mutated. destruct (decodes (heap s) mt) eqn:Hdec.
    + apply negb_true_iff, bool_decide_eq_false_2. intros [_ Hc].
      specialize (Hheap mt Hin). unfold decodes in Hdec.
      destruct (decode_text (Operand (heap s !!! str_insn_of mt))); [|done].
      destruct Hheap as [_ Hnop].
      apply lookup_total_same in Hc. rewrite Hnop in Hc.
      rewrite Forall_forall in Hcall. specialize (Hcall mt Hin).
      rewrite <- Hc in Hcall. done.
    + apply negb_false_iff, bool_decide_eq_true_2. by apply Hfail.
  - intros x Hx.
    destruct (decide (x ∈ slots (base64_calls (self s)))) as [Hin|Hout];
      [|by apply Hfr].
    apply slots_elem_inv in Hin as (mt & Hin & Hxm).
    destruct (decodes (heap s) mt) eqn:Hdec.
    + exfalso. apply Hx.
      assert (Hf : mt ∈ List.filter (decodes (heap s)) (base64_calls (self s))).
      { apply list_elem_of_In, List.filter_In. split; [|done].
        by apply list_elem_of_In. }
      destruct (slots_elem _ _ Hf) as [Hs Hc]. by destruct Hxm as [->| ->].
    + destruct (Hfail mt Hin Hdec) as [Hs Hc]. by destruct Hxm as [->| ->].
  - intros host s0 l. apply main_leaves_other_literals.
Qed.

Lemma C5_witness_mixed :
  exists s' decoded_strings,
    decode_base64_strings (scanned mixed_state) = (s', Ok decoded_strings)
    /\ length decoded_strings
       = length (List.filter (decodes (heap (scanned mixed_state)))
                   (base64_calls (self (scanned mixed_state))))
    /\ (length (List.filter (decodes (heap (scanned mixed_state)))
                  (base64_calls (self (scanned mixed_state))))
        <= length (base64_calls (self (scanned mixed_state))))%nat
    /\ List.filter (mutated (heap (scanned mixed_state)) (heap s'))
         (base64_calls (self (scanned mixed_state)))
       = List.filter (decodes (heap (scanned mixed_state)))
           (base64_calls (self (scanned mixed_state)))
    /\ (forall mt,
          mt ∈ base64_calls (self (scanned mixed_state)) ->
          decodes (heap (scanned mixed_state)) mt = false ->
          heap s' !! str_insn_of mt
          = heap (scanned mixed_state) !! str_insn_of mt
          /\ heap s' !! call_insn_of mt
             = heap (scanned mixed_state) !! call_insn_of mt)
    /\ (forall x,
          x ∉ slots (List.filter (decodes (heap (scanned mixed_state)))
                       (base64_calls (self (scanned mixed_state)))) ->
          heap s' !! x = heap (scanned mixed_state) !! x)
    /\ (forall host s0 (l : loc),
          module_ok (heap s0) (file_module (self s0)) = true ->
          base64_calls (self s0) = [] ->
          is_ldstr (heap s0) l = true ->
          (forall mt, site (heap s0) (file_module (self s0)) mt ->
                      str_insn_of mt ≠ l) ->
          heap (fst (main host s0)) !! l = heap s0 !! l).
Proof.
  apply (C5_patcher_mutates_exactly_decoded_pairs (scanned mixed_state)).
  - apply (bool_decide_unpack _). vm_compute. exact I.
  - apply (bool_decide_unpack _). vm_compute. exact I.
Defined.

(** ** Reporting and saving *)

Lemma main_eq host s :
  main host s
  = match identify_base64_calls host s with
    | (s1, Ok _) =>
        (decoded_strings <- decode_base64_strings ;; report decoded_strings) s1
    | (s1, Raise e) => (s1, Raise e)
    end.
Proof. reflexivity. Qed.

Lemma patch_and_report_eq s :
  (decoded_strings <- decode_base64_strings ;; report decoded_strings) s
  = match decode_base64_strings s with
    | (s2, Ok decoded_strings) => report decoded_strings s2
    | (s2, Raise e) => (s2, Raise e)
    end.
Proof. reflexivity. Qed.

(** C7.  [main] prints the table and calls [save_module] only when the
    patcher returned at least one pair.  When the scan raised, or the
    patcher returned no pair, standard output and the written files are
    as before; otherwise the table, the count and the path are printed
    and one file is written, under the name [save_module] computes, with
    the patched instructions.  The patcher itself never raises. *)
Theorem C7_no_pairs_no_output (host : Host) (s : State) :
  match identify_base64_calls host s with
  | (s1, Raise e) =>
      main host s = (s1, Raise e)
      /\ stdout s1 = stdout s /\ written s1 = written s
  | (s1, Ok _) =>
      match decode_base64_strings s1 with
      | (s2, Ok []) =>
          main host s = (s2, Ok tt)
          /\ stdout s2 = stdout s /\ written s2 = written s
      | (s2, Ok (row :: rows)) =>
          let name := cleaned_filename (file_path (self s)) in
          stdout (fst (main host s))
          = stdout s ++ [ PrintTable (row :: rows);
                          PrintCount (length (row :: rows));
                          PrintSaved name ]
          /\ written (fst (main host s)) = written s ++ [(name, heap s2)]
      | (s2, Raise _) => False
      end
  end.
Proof.
  destruct (appends_only_identify host (heap s) (file_module (self s)))
    as (delta & r & H).
  rewrite !main_eq, (H s) by done.
  destruct r as [[]|e]; [|done].
  rewrite !patch_and_report_eq, decode_base64_strings_eq.
  destruct (patch_loop_total (base64_calls (self (add_calls delta s))) []
              (add_calls delta s))
    as (s2 & acc & Hrun & Hself & Hout & Hwr & _).
  rewrite Hrun. destruct acc as [|row rows].
  - by rewrite Hout, Hwr.
  - unfold report, bind, print, save_module, bind, gets, Write, ret; simpl.
    rewrite Hself, Hout, Hwr. simpl. by rewrite <- !app_assoc.
Qed.

(** ** Decoding *)

Lemma a2b_step_skip st c :
  is_base64_char c = false -> a2b_step st c = Continue st.
Proof.
  unfold is_base64_char, a2b_step.
  intros [Hpad Htab]%orb_false_iff.
  rewrite Hpad.
  apply Z.ltb_ge in Htab. by rewrite (proj2 (Z.leb_le _ _) Htab).
Qed.

Lemma a2b_loop_filter (data : bytes) : forall st,
  a2b_loop data st = a2b_loop (List.filter is_base64_char data) st.
Proof.
  induction data as [|c data IH]; intros st; [done|].
  cbn [List.filter]. destruct (is_base64_char c) eqn:E.
  - cbn [a2b_loop]. destruct (a2b_step st c); [apply IH|done].
  - cbn [a2b_loop]. rewrite a2b_step_skip by done. apply IH.
Qed.

(** C9.  [b64decode] runs without validation: the decoding loop passes
    over every character that is neither in the alphabet nor the pad,
    so a text decodes as the text without those characters does.  The
    literal [SGVs bG8=], which has a space in it, decodes to [Hello];
    [main] records the pair, rewrites the literal and turns the call
    into a [nop], and nothing is logged. *)
Theorem C9_non_alphabet_characters_are_discarded :
  (forall data : bytes,
     a2b_base64 data = a2b_base64 (List.filter is_base64_char data))
  /\ forallb is_base64_char (str_bytes "SGVs bG8=") = false
  /\ decode_text (OpStr "SGVs bG8=") = Ok "Hello"
  /\ (let s' := fst (main ClrList space_state) in
      stdout s' = [ PrintTable [(OpStr "SGVs bG8=", "Hello")]; PrintCount 1;
                    PrintSaved "/tmp/sample_decoded.exe" ]
      /\ view (heap s') [0; 1]
         = [ {| OpCode := OpCodes.Ldstr; Operand := OpStr "Hello" |};
             {| OpCode := OpCodes.Nop; Operand := FromBase64String |} ]
      /\ log s' = []).
Proof.
  split.
  - intros data. unfold a2b_base64. by rewrite a2b_loop_filter.
  - vm_compute. repeat split.
Qed.

(** ** The output name *)

Lemma rsplit1_join sep (s : string) :
  match rsplit1 sep s with
  | [a] => s = a
  | [a; b] => s = a +:+ String sep b
  | _ => False
  end.
Proof.
  induction s as [|c s IH]; simpl; [done|].
  destruct (rsplit1 sep s) as [|a [|b [|]]]; try done.
  - destruct (Ascii.eqb_spec c sep) as [->|_]; simpl; by rewrite IH.
  - simpl. by rewrite IH.
Qed.

Lemma string_length_app (a b : string) :
  String.length (a +:+ b) = (String.length a + String.length b)%nat.
Proof. induction a as [|c a IH]; simpl; [done|]. by rewrite IH. Qed.

(** The output never has the name of the input. *)
Lemma cleaned_filename_differs (path : string) :
  cleaned_filename path <> path.
Proof.
  unfold cleaned_filename. pose proof (rsplit1_join "."%char path) as H.
  destruct (rsplit1 "."%char path) as [|a [|b [|]]]; try done; simpl.
  - subst a. intros E. apply (f_equal String.length) in E.
    rewrite string_length_app in E. simpl in E. lia.
  - intros E. rewrite H in E. apply (f_equal String.length) in E.
    rewrite !string_length_app in E. simpl in E. lia.
Qed.

Lemma string_app_assoc (a b c : string) :
  (a +:+ b) +:+ c = a +:+ (b +:+ c).
Proof.
  induction a as [|x a IH]; [done|].
  change (String x ((a +:+ b) +:+ c) = String x (a +:+ (b +:+ c))).
  by rewrite IH.
Qed.

Lemma rsplit1_app sep (a b stem ext : string) :
  rsplit1 sep b = [stem; ext] ->
  rsplit1 sep (a +:+ b) = [a +:+ stem; ext].
Proof.
  intros Hb. induction a as [|c a IH]; simpl; [done|]. by rewrite IH.
Qed.

(** When the last dot of the path is in the file name, the code computes
    the name the specification describes. *)
Lemma cleaned_filename_with_extension (path dir base stem ext : string) :
  rsplit1 "/"%char path = [dir; base] ->
  rsplit1 "."%char base = [stem; ext] ->
  cleaned_filename path = claimed_filename path
  /\ cleaned_filename path = dir +:+ "/" +:+ stem +:+ "_decoded." +:+ ext.
Proof.
  intros Hp Hb.
  pose proof (rsplit1_join "/"%char path) as Hj. rewrite Hp in Hj.
  assert (Hs : rsplit1 "."%char path = [dir +:+ String "/"%char stem; ext]).
  { rewrite Hj. apply rsplit1_app. simpl. by rewrite Hb. }
  unfold cleaned_filename, claimed_filename. rewrite Hs, Hp, Hb. simpl.
  rewrite string_app_assoc. simpl. done.
Qed.

(** C8 (the code departs from it).  [save_module] splits the whole path
    at its last dot, not the file name.  For the sample
    [/data/v1.2/sample], which has no extension, the claim names
    [/data/v1.2/sample_decoded.exe]; the code writes to
    [/data/v1_decoded.2/sample], in another directory, and returns
    that path. *)
Theorem C8_dot_in_directory_name :
  claimed_filename "/data/v1.2/sample" = "/data/v1.2/sample_decoded.exe"
  /\ cleaned_filename "/data/v1.2/sample" = "/data/v1_decoded.2/sample"
  /\ rsplit1 "/"%char (cleaned_filename "/data/v1.2/sample")
     = ["/data/v1_decoded.2"; "sample"]
  /\ snd (save_module dotted_dir_state) = Ok "/data/v1_decoded.2/sample"
  /\ map fst (written (fst (main ClrList dotted_dir_state)))
     = ["/data/v1_decoded.2/sample"].
Proof. vm_compute. repeat split. Qed.

(** * Further properties *)

(** ** The output name *)

Lemma contains_app sep (a b : string) :
  contains sep (a +:+ b) = contains sep a || contains sep b.
Proof.
  induction a as [|c a IH]; [done|].
  change (Ascii.eqb c sep || contains sep (a +:+ b)
          = Ascii.eqb c sep || contains sep a || contains sep b).
  rewrite IH. by rewrite orb_assoc.
Qed.

Lemma string_app_nil_r (a : string) : a +:+ "" = a.
Proof.
  induction a as [|c a IH]; [done|].
  change (String c (a +:+ "") = String c a). by rewrite IH.
Qed.

Lemma rsplit1_cases sep (s : string) :
  match rsplit1 sep s with
  | [a] => s = a /\ contains sep s = false
  | [a; b] => s = a +:+ String sep b /\ contains sep b = false
              /\ contains sep s = true
  | _ => False
  end.
Proof.
  induction s as [|c s IH]; simpl; [done|].
  destruct (rsplit1 sep s) as [|a [|b [|]]]; try done.
  - destruct IH as [<- Hn]. destruct (Ascii.eqb_spec c sep) as [->|Hne]; simpl.
    + by rewrite Hn.
    + by rewrite Hn.
  - destruct IH as (-> & Hb & Hs). simpl. rewrite Hs.
    by rewrite orb_true_r.
Qed.

Lemma rsplit1_absent sep (s : string) :
  contains sep s = false -> rsplit1 sep s = [s].
Proof.
  intros Hn. pose proof (rsplit1_cases sep s) as H.
  destruct (rsplit1 sep s) as [|a [|b [|]]]; try done.
  - by destruct H as [<- _].
  - destruct H as (_ & _ & H). congruence.
Qed.

Lemma rsplit1_last sep (a b : string) :
  contains sep b = false -> rsplit1 sep (a +:+ String sep b) = [a; b].
Proof.
  intros Hb. rewrite (rsplit1_app sep a (String sep b) "" b).
  - by rewrite string_app_nil_r.
  - simpl. rewrite (rsplit1_absent sep b Hb). by rewrite Ascii.eqb_refl.
Qed.

(** X1.  [s.rsplit(sep, 1)] cuts at the last separator: without a
    separator in the text it returns the text alone; otherwise two
    parts whose join with the separator is the text, the second part
    free of the separator.  It never returns another number of parts. *)
Theorem X1_rsplit_cuts_at_last_separator (sep : ascii) (s : string) :
  match rsplit1 sep s with
  | [a] => s = a /\ contains sep s = false
  | [a; b] => s = a +:+ String sep b /\ contains sep b = false
              /\ contains sep s = true
  | _ => False
  end.
Proof. apply rsplit1_cases. Qed.

(** X2.  The name [save_module] writes to is the input path with
    [_decoded] put in: it is 8 characters longer than the path when the
    path has a dot, 12 characters longer (with [.exe] added) when it has
    none, and so never the path itself. *)
Theorem X2_output_name_is_longer (path : string) :
  String.length (cleaned_filename path)
  = (String.length path + if contains "."%char path then 8 else 12)%nat
  /\ cleaned_filename path <> path.
Proof.
  assert (Hlen : String.length (cleaned_filename path)
    = (String.length path + if contains "."%char path then 8 else 12)%nat).
  { unfold cleaned_filename. pose proof (rsplit1_cases "."%char path) as H.
    destruct (rsplit1 "."%char path) as [|a [|b [|]]]; try done; simpl.
    - destruct H as [<- ->]. rewrite string_length_app. simpl. lia.
    - destruct H as (-> & _ & ->). rewrite !string_length_app. simpl. lia. }
  split; [done|].
  intros E. rewrite E in Hlen. destruct (contains "."%char path); lia.
Qed.

(** X3.  The output name always has an extension, and it is the
    input's: split at its last dot, the output name gives the text
    before the input's last dot followed by [_decoded], and the text
    after the input's last dot; for a path without a dot, the path
    followed by [_decoded], and [exe]. *)
Theorem X3_output_keeps_extension (path : string) :
  rsplit1 "."%char (cleaned_filename path)
  = match rsplit1 "."%char path with
    | [a; b] => [a +:+ "_decoded"; b]
    | _ => [path +:+ "_decoded"; "exe"]
    end.
Proof.
  unfold cleaned_filename. pose proof (rsplit1_cases "."%char path) as H.
  destruct (rsplit1 "."%char path) as [|a [|b [|]]]; try done; simpl.
  - destruct H as [<- _].
    change (path +:+ "_decoded.exe")
      with (path +:+ ("_decoded" +:+ String "."%char "exe")).
    rewrite <- string_app_assoc. by apply rsplit1_last.
  - destruct H as (_ & Hb & _).
    change (a +:+ "_decoded." +:+ b)
      with (a +:+ ("_decoded" +:+ String "."%char b)).
    rewrite <- string_app_assoc. by apply rsplit1_last.
Qed.

(** X4.  A path without a dot and the same path with [.exe] added get
    the same output name: the two inputs overwrite each other's
    result. *)
Theorem X4_exe_and_bare_name_collide (path : string) :
  contains "."%char path = false ->
  cleaned_filename (path +:+ ".exe") = cleaned_filename path.
Proof.
  intros Hn. unfold cleaned_filename.
  rewrite (rsplit1_absent _ _ Hn).
  change (path +:+ ".exe") with (path +:+ String "."%char "exe").
  by rewrite rsplit1_last.
Qed.

Lemma X4_witness_sample :
  cleaned_filename ("/tmp/sample" +:+ ".exe") = cleaned_filename "/tmp/sample".
Proof. apply X4_exe_and_bare_name_collide. reflexivity. Defined.

(** X5.  When the file name of the path has a dot, the output is a file
    of the same directory: directory, the file name's text before its
    last dot, [_decoded.], and the file name's text after its last
    dot. *)
Theorem X5_output_beside_input (path dir base stem ext : string) :
  rsplit1 "/"%char path = [dir; base] ->
  rsplit1 "."%char base = [stem; ext] ->
  cleaned_filename path = dir +:+ "/" +:+ stem +:+ "_decoded." +:+ ext
  /\ rsplit1 "/"%char (cleaned_filename path)
     = [dir; stem +:+ "_decoded." +:+ ext].
Proof.
  intros Hp Hb.
  destruct (cleaned_filename_with_extension path dir base stem ext Hp Hb)
    as [_ Hc].
  split; [done|]. rewrite Hc.
  pose proof (rsplit1_cases "/"%char path) as H1. rewrite Hp in H1.
  destruct H1 as (_ & Hbase & _).
  pose proof (rsplit1_cases "."%char base) as H2. rewrite Hb in H2.
  destruct H2 as (-> & _ & _).
  rewrite contains_app in Hbase. apply orb_false_iff in Hbase as [Hs He].
  simpl in He.
  apply rsplit1_last.
  rewrite !contains_app, Hs, He. reflexivity.
Qed.

Lemma X5_witness_sample :
  cleaned_filename "/tmp/a.b/sample.dll" = "/tmp/a.b" +:+ "/" +:+ "sample"
                                           +:+ "_decoded." +:+ "dll"
  /\ rsplit1 "/"%char (cleaned_filename "/tmp/a.b/sample.dll")
     = ["/tmp/a.b"; "sample" +:+ "_decoded." +:+ "dll"].
Proof.
  apply (X5_output_beside_input "/tmp/a.b/sample.dll" "/tmp/a.b"
           "sample.dll" "sample" "dll"); reflexivity.
Defined.

(** ** The scanner on any module *)

Lemma IndexOf_elem (l : list loc) (x : loc) :
  x ∈ l -> 0 <= IndexOf l x < Z.of_nat (length l).
Proof.
  induction l as [|y l IH]; intros Hin; [by apply elem_of_nil in Hin|].
  simpl IndexOf. destruct (bool_decide (y = x)) eqn:E.
  - simpl length. lia.
  - apply bool_decide_eq_false_1 in E.
    apply elem_of_cons in Hin as [->|Hin]; [done|].
    specialize (IH Hin).
    rewrite (proj2 (Z.ltb_ge _ _)) by lia. simpl length. lia.
Qed.

Lemma IndexOf_zero (l : list loc) (x : loc) :
  x ∈ l -> (IndexOf l x = 0 <-> head l = Some x).
Proof.
  destruct l as [|y l]; intros Hin; [by apply elem_of_nil in Hin|].
  simpl. destruct (bool_decide (y = x)) eqn:E.
  - apply bool_decide_eq_true_1 in E. by subst.
  - apply bool_decide_eq_false_1 in E.
    apply elem_of_cons in Hin as [->|Hin]; [done|].
    pose proof (IndexOf_elem l x Hin).
    rewrite (proj2 (Z.ltb_ge _ _)) by lia.
    split; [lia|]. intros [=]. done.
Qed.

Lemma get_Item_elem host (l : list loc) (i : Z) (x : loc) :
  get_Item host l i = Ok x -> x ∈ l.
Proof.
  unfold get_Item. destruct host.
  - destruct ((0 <=? i) && (i <? Z.of_nat (length l))); [|done].
    destruct (l !! Z.to_nat i) eqn:E; [|done].
    intros [= <-]. by eapply list_elem_of_lookup_2.
  - destruct ((0 <=? (if i <? 0 then i + Z.of_nat (length l) else i))
              && ((if i <? 0 then i + Z.of_nat (length l) else i)
                  <? Z.of_nat (length l))); [|done].
    destruct (l !! Z.to_nat (if i <? 0 then i + Z.of_nat (length l) else i))
      eqn:E; [|done].
    intros [= <-]. by eapply list_elem_of_lookup_2.
Qed.

Lemma get_Item_in_range host (l : list loc) (i : Z) :
  0 <= i < Z.of_nat (length l) -> exists x, get_Item host l i = Ok x.
Proof.
  intros Hi.
  destruct (lookup_lt_is_Some_2 l (Z.to_nat i)) as [x Hx]; [lia|].
  exists x. unfold get_Item. destruct host.
  - rewrite (proj2 (Z.leb_le _ _)) by lia.
    rewrite (proj2 (Z.ltb_lt _ _)) by lia. simpl. by rewrite Hx.
  - rewrite (proj2 (Z.ltb_ge _ _)) by lia.
    rewrite (proj2 (Z.leb_le _ _)) by lia.
    rewrite (proj2 (Z.ltb_lt _ _)) by lia. simpl. by rewrite Hx.
Qed.

Lemma get_Item_minus_one (l : list loc) :
  l <> [] ->
  get_Item ClrList l (-1) = Raise ArgumentOutOfRangeException
  /\ exists x, get_Item PySequence l (-1) = Ok x /\ last l = Some x.
Proof.
  intros Hne. split; [done|].
  destruct l as [|y l' _] using rev_ind; [done|].
  exists y. split; [|apply last_snoc].
  unfold get_Item. rewrite length_app. simpl length.
  change (-1 <? 0) with true. cbv iota.
  rewrite (proj2 (Z.leb_le _ _)) by lia.
  rewrite (proj2 (Z.ltb_lt _ _)) by lia. simpl.
  replace (Z.to_nat (-1 + Z.of_nat (length l' + 1))) with (length l') by lia.
  by rewrite list_lookup_middle.
Qed.

Lemma appends_with_ret P : appends_with P (ret tt).
Proof.
  intros h md. exists [], (Ok tt). split; [constructor|].
  intros s _ _. unfold ret. by rewrite add_calls_nil.
Qed.

Lemma appends_with_seq P (m k : M unit) :
  appends_with P m -> appends_with P k -> appends_with P (m ;;; k).
Proof.
  intros Hm Hk h md.
  destruct (Hm h md) as (d1 & r1 & P1 & H1).
  destruct (Hk h md) as (d2 & r2 & P2 & H2).
  destruct r1 as [[]|e].
  - exists (d1 ++ d2), r2. split; [by apply Forall_app|].
    intros s Hh Hmd. unfold bind. rewrite (H1 s Hh Hmd).
    rewrite (H2 (add_calls d1 s)) by done. by rewrite add_calls_app.
  - exists d1, (Raise e). split; [done|].
    intros s Hh Hmd. unfold bind. by rewrite (H1 s Hh Hmd).
Qed.

Lemma appends_with_for_each {A} P (xs : list A) (body : A -> M unit) :
  (forall x, x ∈ xs -> appends_with P (body x)) ->
  appends_with P (for_each xs body).
Proof.
  induction xs as [|x xs IH]; intros Hb; simpl.
  - apply appends_with_ret.
  - apply appends_with_seq.
    + apply Hb. left.
    + apply IH. intros y Hy. apply Hb. by right.
Qed.

Lemma recorded_scan_insn host method instructions insn :
  Body method = Some instructions ->
  insn ∈ instructions ->
  appends_with (recorded host) (scan_insn host method instructions insn).
Proof.
  intros Hbody Hin h md.
  assert (Hnone : exists delta r,
    Forall (recorded host h) delta
    /\ forall s : State, heap s = h -> file_module (self s) = md ->
         (s, Ok tt) = (add_calls delta s, r)).
  { exists [], (Ok tt). split; [constructor|].
    intros s _ _. by rewrite add_calls_nil. }
  unfold scan_insn, bind, get_insn, lift, ret.
  destruct (is_target_call h insn) eqn:Ht.
  - unfold is_target_call in Ht. apply andb_true_iff in Ht as [Hc Hop].
    destruct (Operand (h !!! insn)) as [|str|n|kind dt nm] eqn:Ho; try done.
    destruct kind; try done.
    destruct (get_Item host instructions (IndexOf instructions insn - 1))
      as [prev|e] eqn:Hp.
    + destruct (bool_decide (OpCode (h !!! prev) = OpCodes.Ldstr)) eqn:Hl.
      * exists [(method, insn, prev)], (Ok tt). split.
        -- constructor; [|constructor]. exists instructions.
           repeat split; auto.
           ++ by eapply get_Item_elem.
           ++ unfold is_target_call. by rewrite Hc, Ho, Hop.
        -- intros s Hh _; subst h. rewrite Hc, Ho, Hop.
           cbn beta iota. by rewrite Hl.
      * exists [], (Ok tt). split; [constructor|].
        intros s Hh _; subst h. rewrite Hc, Ho, Hop.
        cbn beta iota. rewrite Hl. by rewrite add_calls_nil.
    + exists [], (Raise e). split; [constructor|].
      intros s Hh _; subst h. rewrite Hc, Ho, Hop.
      by rewrite add_calls_nil.
  - destruct Hnone as (delta & r & HP & Hrun). exists delta, r.
    split; [done|]. intros s Hh Hmd. rewrite <- (Hrun s Hh Hmd).
    subst h. by apply scan_insn_not_target.
Qed.

Lemma recorded_scan_method host method :
  appends_with (recorded host) (scan_method host method).
Proof.
  unfold scan_method, HasBody, Body_Instructions.
  destruct (Body method) as [instructions|] eqn:Hb; simpl.
  - intros h md.
    destruct (appends_with_for_each (recorded host) instructions
                (scan_insn host method instructions)
                (fun x Hx => recorded_scan_insn host method instructions x
                               Hb Hx) h md)
      as (d & r & HP & H).
    exists d, r. split; [done|]. intros s Hh Hmd. unfold bind, ret.
    by apply H.
  - apply appends_with_ret.
Qed.

(** X6.  Whatever the module and however the scan ends, every match it
    appends has a method with a body, a call instruction of that body
    that calls the target through a [MemberRef], and as its literal the
    string load the list gives at the position before the first
    occurrence of the call instruction. *)
Theorem X6_every_recorded_match_is_a_call_after_a_literal
    (host : Host) (s : State) :
  exists (delta : list Match) (r : result unit),
    identify_base64_calls host s = (add_calls delta s, r)
    /\ Forall (recorded host (heap s)) delta.
Proof.
  destruct (appends_with_for_each (recorded host)
              (Types (file_module (self s)))
              (fun module_type =>
                 for_each (Methods module_type) (scan_method host))
              (fun t _ => appends_with_for_each (recorded host) (Methods t)
                            (scan_method host)
                            (fun m _ => recorded_scan_method host m))
              (heap s) (file_module (self s)))
    as (d & r & HP & H).
  exists d, r. split; [|done].
  unfold identify_base64_calls, bind, gets. by apply H.
Qed.

Lemma scan_insn_at_target host method instructions insn s :
  is_target_call (heap s) insn = true ->
  scan_insn host method instructions insn s
  = match get_Item host instructions (IndexOf instructions insn - 1) with
    | Ok p =>
        (add_calls (if is_ldstr (heap s) p then [(method, insn, p)] else []) s,
         Ok tt)
    | Raise e => (s, Raise e)
    end.
Proof.
  unfold is_target_call, scan_insn, bind, get_insn, lift, is_ldstr.
  intros Ht.
  destruct (bool_decide (OpCode (heap s !!! insn) = OpCodes.Call)); [|done].
  simpl in Ht.
  destruct (Operand (heap s !!! insn)) as [|str|n|kind dt nm]; try done.
  destruct kind; try done.
  rewrite Ht.
  destruct (get_Item host instructions (IndexOf instructions insn - 1));
    [|done].
  destruct (bool_decide (OpCode (heap s !!! a) = OpCodes.Ldstr)); [done|].
  unfold ret. by rewrite add_calls_nil.
Qed.

Lemma scan_insn_outcome host method instructions insn s :
  insn ∈ instructions ->
  exists delta,
    scan_insn host method instructions insn s
    = (add_calls delta s,
       if raises_at host (heap s) instructions insn
       then Raise ArgumentOutOfRangeException else Ok tt).
Proof.
  intros Hin. destruct (is_target_call (heap s) insn) eqn:Ht.
  - rewrite scan_insn_at_target by done.
    pose proof (IndexOf_elem _ _ Hin) as Hrange.
    pose proof (IndexOf_zero _ _ Hin) as Hzero.
    assert (Hne : instructions <> []).
    { intros ->. by apply elem_of_nil in Hin. }
    destruct (decide (head instructions = Some insn)) as [Hhd|Hhd].
    + rewrite (proj2 Hzero Hhd).
      destruct (get_Item_minus_one instructions Hne) as [Hclr (x & Hpy & _)].
      change (0 - 1) with (-1). unfold raises_at. destruct host.
      * rewrite Hclr, Ht, bool_decide_eq_true_2 by done.
        exists []. by rewrite add_calls_nil.
      * rewrite Hpy. eauto.
    + assert (IndexOf instructions insn <> 0) by (by rewrite Hzero).
      destruct (get_Item_in_range host instructions
                  (IndexOf instructions insn - 1)) as [x Hx]; [lia|].
      rewrite Hx.
      replace (raises_at host (heap s) instructions insn) with false; [eauto|].
      destruct host; simpl; [|done].
      by rewrite bool_decide_eq_false_2, andb_false_r.
  - rewrite scan_insn_not_target by done. exists [].
    rewrite add_calls_nil.
    replace (raises_at host (heap s) instructions insn) with false; [done|].
    destruct host; simpl; [|done]. by rewrite Ht.
Qed.

Lemma scan_loop_outcome host method instructions (xs : list loc) :
  (forall x, x ∈ xs -> x ∈ instructions) ->
  forall s, exists delta,
    for_each xs (scan_insn host method instructions) s
    = (add_calls delta s,
       if existsb (raises_at host (heap s) instructions) xs
       then Raise ArgumentOutOfRangeException else Ok tt).
Proof.
  induction xs as [|x xs IH]; intros Hsub s; simpl.
  - exists []. unfold ret. by rewrite add_calls_nil.
  - destruct (scan_insn_outcome host method instructions x s) as [d1 H1];
      [apply Hsub; left|].
    unfold bind. rewrite H1.
    destruct (raises_at host (heap s) instructions x); simpl; [eauto|].
    destruct (IH (fun y Hy => Hsub y (list_elem_of_further _ _ _ Hy))
                 (add_calls d1 s)) as [d2 H2].
    rewrite H2. simpl. exists (d1 ++ d2). by rewrite add_calls_app.
Qed.

Lemma raises_in_body host h (instructions : list loc) :
  existsb (raises_at host h instructions) instructions
  = match host with
    | ClrList => match instructions with
                 | first :: _ => is_target_call h first
                 | [] => false
                 end
    | PySequence => false
    end.
Proof.
  destruct host.
  - destruct instructions as [|c rest]; [done|].
    destruct (is_target_call h c) eqn:Ht.
    + simpl. by rewrite Ht, bool_decide_eq_true_2.
    + apply not_true_is_false. intros (x & _ & Hx)%existsb_exists.
      simpl in Hx. apply andb_true_iff in Hx as [Hx Hhd].
      apply bool_decide_eq_true_1 in Hhd. injection Hhd as ->. congruence.
  - induction instructions as [|c rest IH]; [done|]. simpl.
    simpl in IH. done.
Qed.

Lemma scan_method_outcome host method s :
  exists delta,
    scan_method host method s
    = (add_calls delta s,
       if match host with
          | ClrList => starts_with_target (heap s) method
          | PySequence => false
          end
       then Raise ArgumentOutOfRangeException else Ok tt).
Proof.
  unfold scan_method, HasBody, Body_Instructions, starts_with_target.
  destruct (Body method) as [instructions|]; simpl.
  - destruct (scan_loop_outcome host method instructions instructions
                (fun x Hx => Hx) s) as [d H].
    exists d. unfold bind, ret. rewrite H, raises_in_body.
    by destruct host, instructions.
  - exists []. unfold ret. rewrite add_calls_nil. by destruct host.
Qed.

Lemma scan_methods_outcome host (methods : list Method) : forall s,
  exists delta,
    for_each methods (scan_method host) s
    = (add_calls delta s,
       if match host with
          | ClrList => existsb (starts_with_target (heap s)) methods
          | PySequence => false
          end
       then Raise ArgumentOutOfRangeException else Ok tt).
Proof.
  induction methods as [|m methods IH]; intros s; simpl.
  - exists []. unfold ret. rewrite add_calls_nil. by destruct host.
  - destruct (scan_method_outcome host m s) as [d1 H1].
    unfold bind. rewrite H1.
    destruct (IH (add_calls d1 s)) as [d2 H2].
    destruct host; simpl in *.
    + destruct (starts_with_target (heap s) m); simpl; [eauto|].
      rewrite H2. exists (d1 ++ d2). by rewrite add_calls_app.
    + rewrite H2. exists (d1 ++ d2). by rewrite add_calls_app.
Qed.

(** X7.  How the scan ends is decided by the first instructions of the
    bodies.  On a CLR list it raises [ArgumentOutOfRangeException] if
    and only if some method body starts with a call to the target, and
    returns normally otherwise; on a sequence that takes negative
    indices it never raises.  No other exception leaves the scanner. *)
Theorem X7_scan_raises_iff_a_body_starts_with_the_call
    (host : Host) (s : State) :
  snd (identify_base64_calls host s)
  = if scan_raises host (heap s) (file_module (self s))
    then Raise ArgumentOutOfRangeException else Ok tt.
Proof.
  unfold identify_base64_calls, bind, gets, scan_raises,
    some_body_starts_with_target.
  generalize (Types (file_module (self s))). intros types.
  assert (H : exists delta,
    for_each types
      (fun module_type => for_each (Methods module_type) (scan_method host)) s
    = (add_calls delta s,
       if match host with
          | ClrList =>
              existsb (fun module_type =>
                         existsb (starts_with_target (heap s))
                                 (Methods module_type)) types
          | PySequence => false
          end
       then Raise ArgumentOutOfRangeException else Ok tt)).
  { revert s. induction types as [|t types IH]; intros s; simpl.
    - exists []. unfold ret. rewrite add_calls_nil. by destruct host.
    - destruct (scan_methods_outcome host (Methods t) s) as [d1 H1].
      unfold bind. rewrite H1.
      destruct (IH (add_calls d1 s)) as [d2 H2].
      destruct host; simpl in *.
      + destruct (existsb (starts_with_target (heap s)) (Methods t)); simpl;
          [eauto|].
        rewrite H2. exists (d1 ++ d2). by rewrite add_calls_app.
      + rewrite H2. exists (d1 ++ d2). by rewrite add_calls_app. }
  destruct H as [d ->]. by destruct host.
Qed.

(** ** The patcher on any match list *)

Lemma patch_loop_sound (calls : list Match) : forall acc s,
  exists s' pairs newlog,
    for_fold calls acc decode_one s = (s', Ok (acc ++ pairs))
    /\ log s' = log s ++ newlog
    /\ Forall (fun pr => decode_text (fst pr) = Ok (snd pr)) pairs
    /\ Forall (fun rc => decode_text (fst rc) = Raise (snd rc)) newlog
    /\ (length pairs + length newlog = length calls)%nat.
Proof.
  induction calls as [|[[m c] l] calls IH]; intros acc s.
  - exists s, [], []. simpl. unfold ret. rewrite !app_nil_r.
    repeat split; auto.
  - cbn [for_fold]. unfold bind at 1. rewrite decode_one_eq. cbn zeta.
    destruct (decode_text (Operand (heap s !!! l))) as [d|e] eqn:Hd.
    + destruct (IH (acc ++ [(Operand (heap s !!! l), d)])
                  (set_heap (patch_heap (heap s) c l d) s))
        as (s' & pairs & newlog & Hrun & Hlog & Hp & Hl & Hlen).
      exists s', ((Operand (heap s !!! l), d) :: pairs), newlog.
      rewrite Hrun, <- app_assoc. simpl.
      repeat split; auto; try (simpl; lia).
    + destruct (IH acc (add_log (Operand (heap s !!! l), e) s))
        as (s' & pairs & newlog & Hrun & Hlog & Hp & Hl & Hlen).
      exists s', pairs, ((Operand (heap s !!! l), e) :: newlog).
      rewrite Hrun, Hlog. simpl. rewrite <- app_assoc. simpl.
      repeat split; auto; try (simpl; lia).
Qed.

(** X8.  Whatever [base64_calls] holds, also matches that share
    instructions or appear twice, the patcher returns normally: every
    pair it returns is a text with the result of decoding it, every
    record it logs is a text with the exception decoding it raised,
    each match yields one or the other, and [base64_calls], the module,
    standard output and the written files are left as they were. *)
Theorem X8_patcher_never_raises_and_pairs_are_decodings (s : State) :
  exists s' decoded_strings newlog,
    decode_base64_strings s = (s', Ok decoded_strings)
    /\ log s' = log s ++ newlog
    /\ Forall (fun pr => decode_text (fst pr) = Ok (snd pr)) decoded_strings
    /\ Forall (fun rc => decode_text (fst rc) = Raise (snd rc)) newlog
    /\ (length decoded_strings + length newlog
        = length (base64_calls (self s)))%nat
    /\ self s' = self s /\ stdout s' = stdout s /\ written s' = written s.
Proof.
  rewrite decode_base64_strings_eq.
  destruct (patch_loop_sound (base64_calls (self s)) [] s)
    as (s' & pairs & newlog & Hrun & Hlog & Hp & Hl & Hlen).
  destruct (patch_loop_total (base64_calls (self s)) [] s)
    as (s'' & acc' & Hrun' & Hself & Hout & Hwr & _).
  rewrite Hrun in Hrun'. injection Hrun' as <- <-.
  exists s', pairs, newlog. rewrite Hrun. simpl. repeat split; auto.
Qed.

(** ** Running the tool on its own output *)

Lemma decode_run_patched s s' acc' :
  NoDup (slots (base64_calls (self s))) ->
  decode_base64_strings s = (s', Ok acc') ->
  patched (heap s) (heap s') (base64_calls (self s))
  /\ acc' = omap (decoded_pair (heap s)) (base64_calls (self s))
  /\ stdout s' = stdout s /\ written s' = written s.
Proof.
  intros Hnd Hrun. rewrite decode_base64_strings_eq in Hrun.
  destruct (patch_loop_total (base64_calls (self s)) [] s)
    as (s'' & acc'' & Hrun' & _ & Hout & Hwr & Hfr & _).
  rewrite Hrun in Hrun'. injection Hrun' as <- <-.
  destruct (patch_loop_disjoint _ _ _ _ _ Hnd Hrun) as (Hacc & _ & Hheap).
  repeat split; auto.
Qed.

Lemma spec_scan_sites h md (mt : Match) :
  mt ∈ spec_scan h md ->
  is_target_call h (call_insn_of mt) = true
  /\ is_ldstr h (str_insn_of mt) = true.
Proof.
  destruct mt as [[m c] p]. intros Hin. apply spec_scan_elem in Hin.
  destruct Hin as (t & ins & i & _ & _ & _ & _ & _ & Ht & Hl). done.
Qed.

Lemma is_target_call_opcode h x :
  is_target_call h x = true -> OpCode (h !!! x) = OpCodes.Call.
Proof.
  unfold is_target_call. intros [H _]%andb_true_iff.
  by apply bool_decide_eq_true_1 in H.
Qed.

Lemma is_ldstr_opcode h x :
  is_ldstr h x = true -> OpCode (h !!! x) = OpCodes.Ldstr.
Proof. unfold is_ldstr. apply bool_decide_eq_true_1. Qed.

(** Patching creates no call to the target and no string load. *)
Lemma patched_no_new_sites h h' (calls : list Match) :
  patched h h' calls ->
  (forall mt, mt ∈ calls -> is_ldstr h (str_insn_of mt) = true) ->
  forall x,
    (is_target_call h' x = true -> is_target_call h x = true)
    /\ (is_ldstr h' x = true -> is_ldstr h x = true).
Proof.
  intros [Hfr Hm] Hlit x.
  destruct (decide (x ∈ slots calls)) as [Hin|Hout].
  - apply slots_elem_inv in Hin as (mt & Hin & Hx).
    specialize (Hm mt Hin). specialize (Hlit mt Hin).
    destruct (decode_text (Operand (h !!! str_insn_of mt))) as [d|e].
    + destruct Hm as [Hs Hc]. destruct Hx as [->| ->].
      * split; [|done]. intros Ht%is_target_call_opcode.
        rewrite Hs in Ht. done.
      * split.
        -- intros Ht%is_target_call_opcode. rewrite Hc in Ht. done.
        -- intros Ht%is_ldstr_opcode. rewrite Hc in Ht. done.
    + destruct Hm as [Hs Hc].
      apply lookup_total_same in Hs. apply lookup_total_same in Hc.
      unfold is_target_call, is_ldstr.
      destruct Hx as [->| ->]; by rewrite ?Hs, ?Hc.
  - specialize (Hfr x Hout). apply lookup_total_same in Hfr.
    unfold is_target_call, is_ldstr. by rewrite Hfr.
Qed.

Lemma module_ok_mono h h' md :
  (forall x, is_target_call h' x = true -> is_target_call h x = true) ->
  module_ok h md = true -> module_ok h' md = true.
Proof.
  intros Hmono. unfold module_ok. rewrite !forallb_forall.
  intros Hok t Ht. specialize (Hok t Ht). rewrite forallb_forall in Hok.
  apply forallb_forall. intros m Hm. specialize (Hok m Hm).
  unfold method_ok, body_ok in *.
  destruct (Body m) as [[|c rest]|]; try done.
  apply andb_true_iff in Hok as [Hnd Hf]. apply andb_true_iff. split; [done|].
  apply negb_true_iff. apply negb_true_iff in Hf.
  destruct (is_target_call h' c) eqn:E; [|done].
  by rewrite (Hmono c E) in Hf.
Qed.

Lemma site_mono h h' md (mt : Match) :
  (forall x, is_target_call h' x = true -> is_target_call h x = true) ->
  (forall x, is_ldstr h' x = true -> is_ldstr h x = true) ->
  site h' md mt -> site h md mt.
Proof.
  intros Ht Hl. destruct mt as [[m c] p]. unfold site.
  intros (t & ins & i & H1 & H2 & H3 & H4 & H5 & H6 & H7).
  exists t, ins, i. repeat split; auto.
Qed.

Lemma omap_all_None {A B} (f : A -> option B) (l : list A) :
  (forall x, x ∈ l -> f x = None) -> omap f l = [].
Proof.
  induction l as [|x l IH]; intros H; [done|].
  cbn [omap list_omap]. rewrite (H x) by left.
  apply IH. intros y Hy. apply H. by right.
Qed.

(** X9.  Running the tool again on the module it produced changes
    nothing.  For a module with distinct instruction objects and no body
    starting with the call: after [main] has patched it, a fresh decoder
    on the patched instructions finds only the sites whose literal did
    not decode, they fail again, and so the second [main] returns no
    pair, leaves every instruction as it is, prints nothing and writes
    no file. *)
Theorem X9_second_run_changes_nothing
    (host : Host) (s : State) (path' : string) :
  module_ok (heap s) (file_module (self s)) = true ->
  NoDup (all_instructions (file_module (self s))) ->
  base64_calls (self s) = [] ->
  exists s1 s3,
    main host s = (s1, Ok tt)
    /\ main host (loaded path' (file_module (self s)) (heap s1)) = (s3, Ok tt)
    /\ heap s3 = heap s1
    /\ stdout s3 = []
    /\ written s3 = []
    /\ (forall mt, mt ∈ base64_calls (self s3) ->
          mt ∈ base64_calls (self s1)
          /\ decodes (heap s) mt = false).
Proof.
  intros Hok Hnd Hnil.
  set (md := file_module (self s)) in *. set (h := heap s) in *.
  (* the first run *)
  destruct (scan_establishes_patcher_conditions host s Hok Hnd Hnil)
    as (sa & Hscan & Hha & Hca & Hnda & _).
  destruct (patch_loop_total (base64_calls (self sa)) [] sa)
    as (sb & acc & Hrunb & Hselfb & _).
  rewrite <- decode_base64_strings_eq in Hrunb.
  destruct (decode_run_patched sa sb acc Hnda Hrunb) as (Hpat & _ & _ & _).
  rewrite Hha, Hca in Hpat. fold h md in Hpat, Hca.
  assert (Hrep : exists s1, report acc sb = (s1, Ok tt) /\ heap s1 = heap sb
                            /\ self s1 = self sb).
  { destruct acc; simpl; eauto. }
  destruct Hrep as (s1 & Hrep & Hh1 & Hself1).
  assert (Hmain1 : main host s = (s1, Ok tt)).
  { rewrite main_eq, Hscan, patch_and_report_eq, Hrunb. done. }
  assert (Hcalls1 : base64_calls (self s1) = spec_scan h md).
  { by rewrite Hself1, Hselfb, Hca. }
  set (h' := heap sb) in *.
  (* what the patched instructions still offer *)
  assert (Htgt : forall x, is_target_call h' x = true ->
                           is_target_call h x = true).
  { intros x. apply (patched_no_new_sites h h' (spec_scan h md) Hpat
                       (fun mt Hin => proj2 (spec_scan_sites h md mt Hin))). }
  assert (Hlit : forall x, is_ldstr h' x = true -> is_ldstr h x = true).
  { intros x. apply (patched_no_new_sites h h' (spec_scan h md) Hpat
                       (fun mt Hin => proj2 (spec_scan_sites h md mt Hin))). }
  assert (Hleft : forall mt, mt ∈ spec_scan h' md ->
            mt ∈ spec_scan h md
            /\ decodes h mt = false
            /\ h' !!! str_insn_of mt = h !!! str_insn_of mt).
  { intros mt Hin.
    assert (Hold : mt ∈ spec_scan h md).
    { apply spec_scan_elem. apply (site_mono h h'); auto.
      by apply spec_scan_elem. }
    split; [done|].
    destruct (spec_scan_sites h' md mt Hin) as [Ht _].
    destruct Hpat as [_ Hm]. specialize (Hm mt Hold). unfold decodes.
    destruct (decode_text (Operand (h !!! str_insn_of mt))).
    - destruct Hm as [_ Hc]. apply is_target_call_opcode in Ht.
      rewrite Hc in Ht. done.
    - destruct Hm as [Hs _]. split; [done|]. by apply lookup_total_same. }
  (* the second run *)
  assert (Hok2 : module_ok (heap (loaded path' md h')) md = true).
  { simpl. by apply (module_ok_mono h h'). }
  destruct (scan_establishes_patcher_conditions host (loaded path' md h')
              Hok2 Hnd eq_refl)
    as (sc & Hscan2 & Hhc & Hcc & Hndc & _).
  simpl in Hhc, Hcc.
  destruct (patch_loop_total (base64_calls (self sc)) [] sc)
    as (sd & acc2 & Hrund & Hselfd & Houtd & Hwrd & Hfrd & _).
  rewrite <- decode_base64_strings_eq in Hrund.
  destruct (decode_run_patched sc sd acc2 Hndc Hrund)
    as (Hpat2 & Hacc2 & _ & _).
  rewrite Hhc, Hcc in Hpat2, Hacc2.
  assert (Hfail2 : forall mt, mt ∈ spec_scan h' md ->
            exists e, decode_text (Operand (h' !!! str_insn_of mt)) = Raise e).
  { intros mt Hin. destruct (Hleft mt Hin) as (_ & Hdec & Hsame).
    rewrite Hsame. unfold decodes in Hdec.
    destruct (decode_text (Operand (h !!! str_insn_of mt))); [done|eauto]. }
  assert (Hnone : acc2 = []).
  { rewrite Hacc2. apply omap_all_None. intros mt Hin.
    destruct (Hfail2 mt Hin) as [e He]. unfold decoded_pair. by rewrite He. }
  rewrite Hnone in Hrund.
  exists s1, sd. split; [done|]. rewrite Hh1.
  split.
  { rewrite main_eq, Hscan2, patch_and_report_eq, Hrund. done. }
  split.
  { apply map_eq. intros x. destruct Hpat2 as [Hfr2 Hm2].
    destruct (decide (x ∈ slots (spec_scan h' md))) as [Hin|Hout];
      [|by apply Hfr2].
    apply slots_elem_inv in Hin as (mt & Hin & Hx).
    specialize (Hm2 mt Hin). destruct (Hfail2 mt Hin) as [e He].
    rewrite He in Hm2. destruct Hm2 as [Hs Hc].
    by destruct Hx as [->| ->]. }
  split.
  { rewrite Houtd.
    destruct (appends_only_identify host h' md) as (d & r & Hd).
    rewrite (Hd (loaded path' md h')) in Hscan2 by done.
    injection Hscan2 as <- _. done. }
  split.
  { rewrite Hwrd.
    destruct (appends_only_identify host h' md) as (d & r & Hd).
    rewrite (Hd (loaded path' md h')) in Hscan2 by done.
    injection Hscan2 as <- _. done. }
  intros mt Hin. rewrite Hselfd, Hcc in Hin. rewrite Hcalls1.
  destruct (Hleft mt Hin) as (H1 & H2 & _). done.
Qed.

(** ** Decoding a literal *)

Lemma str_bytes_app (a b : string) :
  str_bytes (a +:+ b) = str_bytes a ++ str_bytes b.
Proof.
  induction a as [|c a IH]; [done|].
  change (ord c :: str_bytes (a +:+ b) = ord c :: str_bytes a ++ str_bytes b).
  by rewrite IH.
Qed.

Lemma str_bytes_length (s : string) :
  length (str_bytes s) = String.length s.
Proof. induction s as [|c s IH]; simpl; [done|]. by rewrite IH. Qed.

Lemma bytes_str_length (bs : bytes) :
  String.length (bytes_str bs) = length bs.
Proof. induction bs as [|b bs IH]; simpl; [done|]. by rewrite IH. Qed.

Lemma a2b_loop_done_app (data extra : bytes) : forall st st',
  a2b_loop data st = Done st' -> a2b_loop (data ++ extra) st = Done st'.
Proof.
  induction data as [|c data IH]; intros st st' H; [done|].
  simpl in *. destruct (a2b_step st c); [by apply IH|done].
Qed.

(** X10.  Once a pad character completes a quad the rest of the literal
    is not read: ASCII text put after a literal on which the decoding
    loop stopped at its padding changes neither the decoded text nor
    the exception. *)
Theorem X10_text_after_the_padding_is_ignored
    (s extra : string) (st : a2b_state) :
  is_ascii s = true ->
  is_ascii extra = true ->
  a2b_loop (str_bytes s) a2b_init = Done st ->
  decode_text (OpStr (s +:+ extra)) = decode_text (OpStr s).
Proof.
  unfold is_ascii. intros Hs He Hdone.
  unfold decode_text, b64decode, encode_ascii.
  rewrite str_bytes_app, forallb_app, Hs, He. simpl.
  unfold a2b_base64.
  by rewrite (a2b_loop_done_app _ _ _ _ Hdone), Hdone.
Qed.

Lemma X10_witness_hello :
  decode_text (OpStr ("SGVsbG8=" +:+ "!!garbage"))
  = decode_text (OpStr "SGVsbG8=").
Proof.
  apply (X10_text_after_the_padding_is_ignored "SGVsbG8=" "!!garbage"
           {| quad_pos := 3; leftchar := 0; pads := 1;
              bin_data := str_bytes "Hello" |});
    reflexivity.
Defined.

Ltac a2b_cases :=
  repeat match goal with
    | |- context [if ?a =? ?b then _ else _] => destruct (Z.eqb_spec a b)
    | |- context [if ?a <=? ?b then _ else _] => destruct (Z.leb_spec a b)
    | H : context [if ?a =? ?b then _ else _] |- _ =>
        destruct (Z.eqb_spec a b)
    end.

Lemma a2b_step_bound st c n :
  0 <= quad_pos st <= 3 ->
  4 * Z.of_nat (length (bin_data st)) + quad_credit (quad_pos st) <= 3 * n ->
  match a2b_step st c with
  | Continue st' | Done st' =>
      0 <= quad_pos st' <= 3
      /\ 4 * Z.of_nat (length (bin_data st')) + quad_credit (quad_pos st')
         <= 3 * (n + 1)
  end.
Proof.
  unfold a2b_step, quad_credit. intros Hq Hinv.
  a2b_cases; cbn [quad_pos bin_data leftchar pads] in *;
    rewrite ?length_app; cbn [length]; lia.
Qed.

Lemma a2b_loop_bound (data : bytes) : forall st n,
  0 <= quad_pos st <= 3 ->
  4 * Z.of_nat (length (bin_data st)) + quad_credit (quad_pos st) <= 3 * n ->
  match a2b_loop data st with
  | Continue st' | Done st' =>
      0 <= quad_pos st' <= 3
      /\ 4 * Z.of_nat (length (bin_data st')) + quad_credit (quad_pos st')
         <= 3 * (n + Z.of_nat (length data))
  end.
Proof.
  induction data as [|c data IH]; intros st n Hq Hinv.
  - simpl. split; [done|]. lia.
  - cbn [a2b_loop]. pose proof (a2b_step_bound st c n Hq Hinv) as Hstep.
    destruct (a2b_step st c) as [st1|st1]; destruct Hstep as [Hq1 Hinv1].
    + specialize (IH st1 (n + 1) Hq1 Hinv1).
      destruct (a2b_loop data st1); simpl length;
        destruct IH as [? ?]; split; auto; lia.
    + split; [done|].
      change (length (c :: data)) with (S (length data)).
      rewrite Nat2Z.inj_succ.
      generalize (quad_credit (quad_pos st1)) (Z.of_nat (length data))
        (Nat2Z.is_nonneg (length data)) Hinv1.
      intros; lia.
Qed.

Lemma a2b_base64_bound (data bs : bytes) :
  a2b_base64 data = Ok bs ->
  4 * Z.of_nat (length bs) <= 3 * Z.of_nat (length data).
Proof.
  unfold a2b_base64.
  pose proof (a2b_loop_bound data a2b_init 0) as H.
  specialize (H ltac:(simpl; lia)
                ltac:(unfold a2b_init, quad_credit; simpl; lia)).
  destruct (a2b_loop data a2b_init) as [st|st]; destruct H as [Hq Hb];
    unfold quad_credit in Hb.
  - destruct (Z.eqb_spec (quad_pos st) 0); [|by destruct (quad_pos st =? 1)].
    intros [= <-]. lia.
  - intros [= <-]. a2b_cases; lia.
Qed.

(** X11.  A literal that decodes gives a text of at most three quarters
    of its length, so the patcher replaces every literal that decodes
    by a different text, the empty literal apart. *)
Theorem X11_decoded_text_is_shorter (s d : string) :
  decode_text (OpStr s) = Ok d ->
  (4 * String.length d <= 3 * String.length s)%nat
  /\ (d = s -> s = "").
Proof.
  unfold decode_text, b64decode, encode_ascii, decode_utf8. intros H.
  destruct (forallb (fun b => b <? 128) (str_bytes s)); [|done].
  destruct (a2b_base64 (str_bytes s)) as [bs|e] eqn:Hb; [|done].
  destruct (utf8_wellformed bs 0 128 191); [|done].
  injection H as <-.
  apply a2b_base64_bound in Hb.
  rewrite str_bytes_length in Hb. rewrite bytes_str_length.
  split; [lia|].
  intros E. apply (f_equal String.length) in E.
  rewrite bytes_str_length in E.
  destruct s; [done|]. simpl in *. lia.
Qed.

Lemma X11_witness_hello :
  (4 * String.length "Hello" <= 3 * String.length "SGVsbG8=")%nat
  /\ ("Hello" = "SGVsbG8=" -> "SGVsbG8=" = "").
Proof.
  apply (X11_decoded_text_is_shorter "SGVsbG8=" "Hello"). reflexivity.
Defined.

(** ** [main] from the command line *)

Lemma main_written host s :
  file_path (self (fst (main host s))) = file_path (self s)
  /\ (written (fst (main host s)) = written s
      \/ written (fst (main host s))
         = written s ++ [(cleaned_filename (file_path (self s)),
                          heap (fst (main host s)))]).
Proof.
  destruct (appends_only_identify host (heap s) (file_module (self s)))
    as (delta & r & H).
  rewrite !main_eq, (H s) by done.
  destruct r as [[]|e]; [|by split; [|left]].
  rewrite !patch_and_report_eq, decode_base64_strings_eq.
  destruct (patch_loop_total (base64_calls (self (add_calls delta s))) []
              (add_calls delta s))
    as (s2 & acc & Hrun & Hself & Hout & Hwr & _).
  rewrite Hrun. destruct acc as [|row rows].
  - simpl. rewrite Hself, Hwr. split; [done|by left].
  - unfold report, bind, print, save_module, bind, gets, Write, ret; simpl.
    rewrite Hself, Hwr. split; [done|by right].
Qed.

(** X12.  From the command line: without a path argument [main] exits
    with the usage message, and with a path that does not exist with
    [File not found], in both cases before anything is loaded.
    Otherwise the decoder is constructed on the path, made absolute
    when it was not; and when [main] has run, it has written nothing or
    exactly one file, named by [save_module] from that path, different
    from it, and holding the instructions as [main] left them. *)
Theorem X12_main_writes_only_beside_an_existing_input
    (env : Env) (host : Host) (argv : list string) :
  match main_from_argv env host argv with
  | SystemExit message =>
      ((length argv < 2)%nat
       /\ message = "[!] Usage: dotnet_base64_decoder.py <dotnet_file_path>")
      \/ (exists arg, argv !! 1%nat = Some arg
                      /\ os_path_exists env arg = false
                      /\ message = "[-] File not found")
  | LoadFailed =>
      exists arg, argv !! 1%nat = Some arg /\ os_path_exists env arg = true
  | Ran s r =>
      exists arg,
        argv !! 1%nat = Some arg
        /\ os_path_exists env arg = true
        /\ let path := if os_path_isabs env arg then arg
                       else os_path_abspath env arg in
           file_path (self s) = path
           /\ (written s = []
               \/ written s = [(cleaned_filename path, heap s)])
           /\ cleaned_filename path <> path
  end.
Proof.
  unfold main_from_argv.
  destruct (Nat.ltb_spec (length argv) 2) as [Hlt|Hge]; [by left|].
  destruct argv as [|prog [|arg rest]]; simpl in Hge; try lia.
  simpl nth.
  destruct (os_path_exists env arg) eqn:Hex; simpl;
    [|right; by exists arg].
  set (path := if negb (os_path_isabs env arg)
               then os_path_abspath env arg else arg).
  assert (Hpath : path = if os_path_isabs env arg then arg
                         else os_path_abspath env arg).
  { unfold path. by destruct (os_path_isabs env arg). }
  destruct (ModuleDefMD_Load env path) as [[md h]|]; [|by exists arg].
  pose proof (main_written host (loaded path md h)) as [Hfp Hwr].
  destruct (main host (loaded path md h)) as [s r]. simpl in Hfp, Hwr.
  exists arg. rewrite <- Hpath.
  repeat split; auto. apply cleaned_filename_differs.
Qed.

(** ** The index lookup of the scanner *)

(** X13.  [Instructions[Instructions.IndexOf(insn) - 1]] is the
    instruction before the first occurrence of [insn]: when [insn] has
    an instruction [p] before its first occurrence in the body, the
    lookup returns [p], on either kind of list, also when [insn] occurs
    again later in the body. *)
Theorem X13_lookup_gives_predecessor_of_first_occurrence
    (host : Host) (pre post : list loc) (p insn : loc) :
  insn ∉ pre ++ [p] ->
  IndexOf ((pre ++ [p]) ++ insn :: post) insn = Z.of_nat (length pre) + 1
  /\ get_Item host ((pre ++ [p]) ++ insn :: post)
       (IndexOf ((pre ++ [p]) ++ insn :: post) insn - 1) = Ok p.
Proof.
  intros Hn. rewrite (IndexOf_middle _ _ _ Hn). split.
  - rewrite length_app. simpl. lia.
  - apply get_Item_prev.
Qed.

Lemma X13_witness_repeated_call :
  IndexOf (([7] ++ [8]) ++ 9 :: [5; 9]) 9 = Z.of_nat (length [7]) + 1
  /\ get_Item ClrList (([7] ++ [8]) ++ 9 :: [5; 9])
       (IndexOf (([7] ++ [8]) ++ 9 :: [5; 9]) 9 - 1) = Ok 8.
Proof.
  apply (X13_lookup_gives_predecessor_of_first_occurrence
           ClrList [7] [5; 9] 8 9).
  apply (bool_decide_unpack _). vm_compute. exact I.
Defined.

(** X14.  At a call to the target in first position the lookup asks for
    index -1.  A CLR list raises [ArgumentOutOfRangeException] and the
    scanner records nothing for the call; a sequence that takes
    negative indices answers with the last instruction of the body, and
    the scanner records the call with it when it is a string load. *)
Theorem X14_call_in_first_position
    (method : Method) (c : loc) (rest : list loc) (s : State) :
  is_target_call (heap s) c = true ->
  scan_insn ClrList method (c :: rest) c s
  = (s, Raise ArgumentOutOfRangeException)
  /\ exists p,
       last (c :: rest) = Some p
       /\ scan_insn PySequence method (c :: rest) c s
          = (add_calls
               (if is_ldstr (heap s) p then [(method, c, p)] else []) s,
             Ok tt).
Proof.
  intros Ht. rewrite !scan_insn_at_target by done.
  assert (Hidx : IndexOf (c :: rest) c - 1 = -1).
  { simpl. by rewrite bool_decide_eq_true_2. }
  rewrite Hidx.
  destruct (get_Item_minus_one (c :: rest)) as [Hclr (p & Hpy & Hlast)];
    [done|].
  rewrite Hclr, Hpy. split; [done|]. by exists p.
Qed.

Lemma X14_witness_first_call :
  scan_insn ClrList method_A (0 :: [1; 2]) 0 first_call_state
  = (first_call_state, Raise ArgumentOutOfRangeException)
  /\ exists p,
       last (0 :: [1; 2]) = Some p
       /\ scan_insn PySequence method_A (0 :: [1; 2]) 0 first_call_state
          = (add_calls
               (if is_ldstr (heap first_call_state) p
                then [(method_A, 0, p)] else []) first_call_state,
             Ok tt).
Proof.
  apply (X14_call_in_first_position method_A 0 [1; 2] first_call_state).
  vm_compute. reflexivity.
Defined.

Lemma X9_witness_mixed :
  exists s1 s3,
    main ClrList mixed_state = (s1, Ok tt)
    /\ main ClrList (loaded "/tmp/sample_decoded.exe"
                       (file_module (self mixed_state)) (heap s1))
       = (s3, Ok tt)
    /\ heap s3 = heap s1
    /\ stdout s3 = []
    /\ written s3 = []
    /\ (forall mt, mt ∈ base64_calls (self s3) ->
          mt ∈ base64_calls (self s1)
          /\ decodes (heap mixed_state) mt = false).
Proof.
  apply (X9_second_run_changes_nothing ClrList mixed_state
           "/tmp/sample_decoded.exe").
  - vm_compute. reflexivity.
  - apply (bool_decide_unpack _). vm_compute. exact I.
  - reflexivity.
Defined.
